(** * AquaShield AI: the API gateway and the predictive risk core

    A shallow embedding of the Express gateway routes
    (backend/routes/cascade.js, aegis.js, marine.js, user.js) together
    with models of the Python engines they forward to, and the
    properties the specification states about them. *)

From Stdlib Require Import List String Ascii Bool Arith ZArith QArith Reals Lia Lqa Lra.
From Stdlib Require Import DecimalString.
From Stdlib Require Import Permutation Sorted.
Import ListNotations.

Local Open Scope string_scope.
Local Open Scope list_scope.
Set Warnings "-register-all".

(** ** JavaScript values

    Request bodies, service responses and the objects the routes build
    are JavaScript values.  Numbers are rationals: NaN and the infinities
    are left out (JSON has no literal for them, though a literal beyond
    the double range, such as 1e999, parses to Infinity); an object is
    its list of own properties in insertion order, each key occurring
    once. *)

Module JS.

Inductive value : Type :=
| JUndef
| JNull
| JBool (b : bool)
| JNum (q : Q)
| JStr (s : string)
| JArr (items : list value)
| JObj (props : list (string * value)).

(** ToBoolean: what [!x], [x || d] and [if (x)] look at. *)
Definition truthy (v : value) : bool :=
  match v with
  | JUndef | JNull => false
  | JBool b => b
  | JNum q => negb (Qnum q =? 0)%Z
  | JStr s => negb (s =? "")
  | JArr _ | JObj _ => true
  end.

(** [a || d] *)
Definition or_else (a d : value) : value := if truthy a then a else d.

Fixpoint lookup (k : string) (props : list (string * value)) : option value :=
  match props with
  | [] => None
  | (k', v) :: rest => if k =? k' then Some v else lookup k rest
  end.

(** [o.k] for a data property name [k] that no prototype defines
    (status, vessel, imo, userId, ...): [None] is the TypeError raised on
    [undefined] and [null]; primitives and arrays answer [undefined]. *)
Definition prop (o : value) (k : string) : option value :=
  match o with
  | JUndef | JNull => None
  | JObj props => Some (match lookup k props with Some v => v | None => JUndef end)
  | _ => Some JUndef
  end.

(** [{ ...props, k: v }]: an existing key keeps its place and takes the
    new value, a new key goes last. *)
Fixpoint set_prop (k : string) (v : value) (props : list (string * value))
  : list (string * value) :=
  match props with
  | [] => [(k, v)]
  | (k', v') :: rest =>
      if k =? k' then (k, v) :: rest else (k', v') :: set_prop k v rest
  end.

Definition index_key (i : nat) : string := NilZero.string_of_uint (Nat.to_uint i).

Fixpoint indexed (i : nat) (items : list value) : list (string * value) :=
  match items with
  | [] => []
  | x :: rest => (index_key i, x) :: indexed (S i) rest
  end.

Fixpoint chars (s : string) : list value :=
  match s with
  | EmptyString => []
  | String c rest => JStr (String c EmptyString) :: chars rest
  end.

(** [{ ...v }]: the own enumerable properties of [v]. *)
Definition spread (v : value) : list (string * value) :=
  match v with
  | JObj props => props
  | JArr items => indexed 0 items
  | JStr s => indexed 0 (chars s)
  | _ => []
  end.

(** [for (const x of v)]: [None] is the TypeError "v is not iterable". *)
Definition iterate (v : value) : option (list value) :=
  match v with
  | JArr items => Some items
  | JStr s => Some (chars s)
  | _ => None
  end.

(** [v === 'lit'] *)
Definition is_string (lit : string) (v : value) : bool :=
  match v with
  | JStr s => s =? lit
  | _ => false
  end.

(** Does the text [needle] occur in [hay]? *)
Fixpoint prefix_of (needle hay : string) : bool :=
  match needle, hay with
  | EmptyString, _ => true
  | String a n', String b h' => Ascii.eqb a b && prefix_of n' h'
  | String _ _, EmptyString => false
  end.

Fixpoint occurs_in (needle hay : string) : bool :=
  prefix_of needle hay ||
  match hay with
  | EmptyString => false
  | String _ h' => occurs_in needle h'
  end.

(** Does some string inside [v] (a key or a value, at any depth) contain
    [needle]? *)
Fixpoint mentions (needle : string) (v : value) : bool :=
  match v with
  | JStr s => occurs_in needle s
  | JArr items => existsb (mentions needle) items
  | JObj props =>
      existsb (fun kv => occurs_in needle (fst kv) || mentions needle (snd kv)) props
  | _ => false
  end.

End JS.
Import JS.

(** ** The gateway: routes that forward to the Python service *)

Module Gateway.

(** What a route answers: [res.json(b)] is status 200,
    [res.status(c).json(b)] is status [c]. *)
Record Response : Type := { status_code : nat; body : value }.

Definition res_json (b : value) : Response := {| status_code := 200; body := b |}.
Definition res_status_json (c : nat) (b : value) : Response :=
  {| status_code := c; body := b |}.

(** What a [try] block can throw: a rejected axios call or a TypeError
    of the runtime; [message] is [error.message]. *)
Inductive Exn : Type :=
| AxiosError (msg : string)
| TypeError (msg : string).

Definition message (e : Exn) : string :=
  match e with AxiosError m | TypeError m => m end.

(** One outgoing [axios.post(url, payload)]. *)
Record Call : Type := { url : string; payload : value }.

Section Routes.

(** The Python service is outside the gateway: [service url payload w]
    is its answer to one POST in state [w] (the response data, or the
    message of the rejection) and its state afterwards. *)
Variable World : Type.
Variable service : string -> value -> World -> (value + string) * World.
Variable PYTHON_URL : string.

(** What a route can touch: the service, the wire (every call made, in
    order) and the console. *)
Record State : Type := { world : World; calls : list Call; console : list string }.

Definition M (A : Type) : Type := State -> (A + Exn) * State.

Definition ret {A} (a : A) : M A := fun st => (inl a, st).

Definition bind {A B} (c : M A) (k : A -> M B) : M B :=
  fun st =>
    match c st with
    | (inl a, st') => k a st'
    | (inr e, st') => (inr e, st')
    end.

Definition throw {A} (e : Exn) : M A := fun st => (inr e, st).

(** [try { c } catch (error) { h error }] *)
Definition try_catch {A} (c : M A) (h : Exn -> M A) : M A :=
  fun st =>
    match c st with
    | (inl a, st') => (inl a, st')
    | (inr e, st') => h e st'
    end.

(** [await axios.post(url, payload)], giving [response.data]. *)
Definition axios_post (u : string) (p : value) : M value :=
  fun st =>
    let (answer, w') := service u p (world st) in
    let st' := {| world := w';
                  calls := calls st ++ [{| url := u; payload := p |}];
                  console := console st |} in
    match answer with
    | inl data => (inl data, st')
    | inr msg => (inr (AxiosError msg), st')
    end.

(** [console.error(label, text)] *)
Definition console_error (label text : string) : M unit :=
  fun st =>
    (inl tt, {| world := world st; calls := calls st;
                console := console st ++ [(label ++ " " ++ text)%string] |}).

(** How the runtime names a nullish value in its messages. *)
Definition nullish_name (o : value) : string :=
  match o with JNull => "null" | _ => "undefined" end.

(** [o.k]: reading a property of [undefined] or [null] throws. *)
Definition read (o : value) (k : string) : M value :=
  match prop o k with
  | Some v => ret v
  | None =>
      throw (TypeError ("Cannot read properties of " ++ nullish_name o
                        ++ " (reading '" ++ k ++ "')"))
  end.

(** [const { k } = req.body]: destructuring [undefined] or [null]
    throws. *)
Definition destructure (o : value) (k : string) : M value :=
  match prop o k with
  | Some v => ret v
  | None =>
      throw (TypeError ("Cannot destructure property '" ++ k
                        ++ "' of 'req.body' as it is " ++ nullish_name o ++ "."))
  end.

(** [for (const x of v)] starts by asking [v] for its iterator. *)
Definition for_of (v : value) : M (list value) :=
  match iterate v with
  | Some items => ret items
  | None => throw (TypeError "statuses is not iterable")
  end.

Notation "x <- c ;; k" := (bind c (fun x => k))
  (at level 100, c at next level, right associativity).
Notation "c ;;; k" := (bind c (fun _ => k))
  (at level 100, right associativity).

(** *** POST /api/cascade/simulate (routes/cascade.js) *)
Definition cascade_simulate (req_body : value) : M Response :=
  try_catch
    (source_lat <- destructure req_body "source_lat" ;;
     source_lon <- destructure req_body "source_lon" ;;
     source_type <- destructure req_body "source_type" ;;
     flow_direction <- destructure req_body "flow_direction" ;;
     flow_speed <- destructure req_body "flow_speed" ;;
     simulation_hours <- destructure req_body "simulation_hours" ;;
     data <- axios_post (PYTHON_URL ++ "/simulate_propagation")
               (JObj [("source_lat", source_lat);
                      ("source_lon", source_lon);
                      ("source_type", or_else source_type (JStr "Oil Spill"));
                      ("flow_direction", or_else flow_direction (JNum 180));
                      ("flow_speed", or_else flow_speed (JNum 2));
                      ("simulation_hours", or_else simulation_hours (JNum 12))]) ;;
     ret (res_json data))
    (fun error =>
       console_error "Cascade simulate error:" (message error) ;;;
       ret (res_status_json 500
              (JObj [("error", JStr "Failed to run propagation simulation");
                     ("detail", JStr (message error))]))).

(** *** POST /api/aegis/analyze (routes/aegis.js) *)
Definition aegis_analyze (req_body : value) : M Response :=
  try_catch
    (scenario <- destructure req_body "scenario" ;;
     time_step <- destructure req_body "time_step" ;;
     manual_params <- destructure req_body "manual_params" ;;
     data <- axios_post (PYTHON_URL ++ "/predict_fragility")
               (JObj [("scenario", or_else scenario (JStr "Normal"));
                      ("time_step", or_else time_step (JNum 0));
                      ("manual_params", or_else manual_params JNull)]) ;;
     ret (res_json data))
    (fun error =>
       console_error "AEGIS analyze error:" (message error) ;;;
       ret (res_status_json 500
              (JObj [("error", JStr "Failed to run AEGIS analysis");
                     ("detail", JStr (message error))]))).

(** *** POST /api/marine/analyze (routes/marine.js) *)

(** The guard of the loop body: [vs.status === 'distress' && vs.vessel]. *)
Definition wants_spill (vs : value) : bool :=
  match prop vs "status", prop vs "vessel" with
  | Some status, Some vessel => is_string "distress" status && truthy vessel
  | _, _ => false
  end.

Definition spill_payload (vs : value) : value :=
  JObj [("vessel", match prop vs "vessel" with Some v => v | None => JUndef end)].

(** One turn of the loop over [statuses]. *)
Definition spill_step (spillResults : list value) (vs : value) : M (list value) :=
  status <- read vs "status" ;;
  if is_string "distress" status then
    vessel <- read vs "vessel" ;;
    if truthy vessel then
      try_catch
        (data <- axios_post (PYTHON_URL ++ "/detect_oil_spill")
                   (JObj [("vessel", vessel)]) ;;
         imo <- read vs "imo" ;;
         ret (spillResults ++ [JObj (set_prop "vessel_imo" imo (spread data))]))
        (fun e =>
           console_error "Oil spill detection error:" (message e) ;;;
           ret spillResults)
    else ret spillResults
  else ret spillResults.

Fixpoint spill_loop (statuses : list value) (spillResults : list value)
  : M (list value) :=
  match statuses with
  | [] => ret spillResults
  | vs :: rest => r <- spill_step spillResults vs ;; spill_loop rest r
  end.

Definition marine_analyze (req_body : value) : M Response :=
  try_catch
    (vessels <- read req_body "vessels" ;;
     data <- axios_post (PYTHON_URL ++ "/detect_vessel_anomaly")
               (JObj [("vessels", or_else vessels JNull)]) ;;
     vessel_statuses <- read data "vessel_statuses" ;;
     statuses <- for_of (or_else vessel_statuses (JArr [])) ;;
     spillResults <- spill_loop statuses [] ;;
     ret (res_json (JObj (set_prop "oil_spills" (JArr spillResults) (spread data)))))
    (fun error =>
       console_error "Marine analyze error:" (message error) ;;;
       ret (res_status_json 500
              (JObj [("error", JStr "Failed to run marine analysis");
                     ("detail", JStr (message error))]))).

Definition start (w : World) : State := {| world := w; calls := []; console := [] |}.

End Routes.

(** Modelled from the spec: the Python service as section 5 describes
    its engines (the service code is missing): every analysis call is a
    pure computation over its inputs and no engine retains state between
    calls, so the answer is a function of endpoint and payload and a
    call leaves the service as it was. *)
Definition stateless {World : Type} (engine : string -> value -> value + string)
  : string -> value -> World -> (value + string) * World :=
  fun u p w => (engine u p, w).

Arguments world {World} _.
Arguments calls {World} _.
Arguments console {World} _.
Arguments start {World} _.

End Gateway.

(** ** The history store (routes/user.js, in-memory version) *)

Module UserHistory.

Import Gateway.

(** What one request reads from outside: the two [Date.now()] calls, the
    tail of [Math.random().toString(36)] and [new Date().toISOString()]. *)
Record Env : Type :=
  { now_for_id : N; random_tail : string; now_for_timestamp : N; iso_date : string }.

Definition digit36 (d : N) : ascii :=
  if (d <? 10)%N then ascii_of_N (48 + d) else ascii_of_N (87 + d).

Fixpoint to_base36_digits (fuel : nat) (n : N) (acc : string) : string :=
  match fuel with
  | O => acc
  | S fuel' =>
      let acc' := String (digit36 (n mod 36)) acc in
      if (n / 36 =? 0)%N then acc' else to_base36_digits fuel' (n / 36) acc'
  end.

(** [n.toString(36)] for a non-negative integer. *)
Definition to_base36 (n : N) : string :=
  to_base36_digits (S (N.to_nat (N.log2 n))) n "".

(** [a.slice(-n)]: the last [n] elements. *)
Definition slice_last {A} (n : nat) (a : list A) : list A :=
  skipn (List.length a - n) a.

Definition history_cap : nat := 500.

(** [router.post('/history')]: the answer and [analysisHistory] afterwards. *)
Definition post_history (env : Env) (req_body : value) (analysisHistory : list value)
  : Response * list value :=
  match prop req_body "userId", prop req_body "product",
        prop req_body "analysisType", prop req_body "data", prop req_body "summary" with
  | Some userId, Some product, Some analysisType, Some data, Some summary =>
      if negb (truthy userId) || negb (truthy product) then
        (res_status_json 400 (JObj [("error", JStr "userId and product are required")]),
         analysisHistory)
      else
        let entry :=
          JObj [("id", JStr (to_base36 (now_for_id env) ++ random_tail env));
                ("userId", userId);
                ("product", product);
                ("analysisType", or_else analysisType (JStr "general"));
                ("summary", or_else summary (JStr ""));
                ("data", data);
                ("timestamp", JNum (inject_Z (Z.of_N (now_for_timestamp env))));
                ("date", JStr (iso_date env))] in
        let pushed := analysisHistory ++ [entry] in
        let kept :=
          if (history_cap <? List.length pushed)%nat then slice_last history_cap pushed else pushed in
        (res_json (JObj [("success", JBool true); ("entry", entry)]), kept)
  | _, _, _, _, _ =>
      (* destructuring a nullish body throws; the catch answers 500 *)
      (res_status_json 500 (JObj [("error", JStr "Failed to save analysis")]),
       analysisHistory)
  end.

(** The store starts empty and lives as long as the process:
    [serve reqs h] is the store after the POSTs [reqs], in order. *)
Fixpoint serve (reqs : list (Env * value)) (analysisHistory : list value) : list value :=
  match reqs with
  | [] => analysisHistory
  | (env, req_body) :: rest => serve rest (snd (post_history env req_body analysisHistory))
  end.

End UserHistory.

(** ** Structured failures of the core operations *)

Module Core.

(** Modelled from the spec: the error taxonomy of section 7 (the
    services that raise these errors are missing). *)
Inductive ErrorKind : Type := ValidationError | ComputationError.

(** Modelled from the spec: the error path of an operation, kind +
    message (section 6; the services are missing). *)
Record Failure : Type := { kind : ErrorKind; failure_message : string }.

(** Modelled from the spec: what an operation returns, a structured
    failure or its result (section 6; the services are missing). *)
Definition Outcome (A : Type) : Type := (Failure + A)%type.

(** Modelled from the spec: a ValidationError with its message (section
    7; the services are missing). *)
Definition invalid {A} (msg : string) : Outcome A :=
  inl {| kind := ValidationError; failure_message := msg |}.

End Core.

(** ** The fragility engine: scenario normaliser, scoring, dispatch router

    The Python service behind /predict_fragility
    (microservices/services/aegis) is not among the sources; this module
    follows sections 3, 4.1, 4.2 and 6 of the specification. *)

Module Fragility.

Import Core.

(** Modelled from the spec: the status tiers of a zone (section 3; the
    fragility service is missing). *)
Inductive Status : Type := normal | warning | critical.

(** Modelled from the spec: the test for the critical tier, which
    selects the destinations of section 4.2 (the router code is
    missing). *)
Definition is_critical (s : Status) : bool :=
  match s with critical => true | _ => false end.

(** Modelled from the spec: the test for the warning tier, counted in
    the summary of section 6 (the service code is missing). *)
Definition is_warning (s : Status) : bool :=
  match s with warning => true | _ => false end.

(** Modelled from the spec: the canonical feature vector of section 2
    (the normaliser code is missing). *)
Record Features : Type :=
  { rainfall : Q; power_availability : Q; tanker_count : Q;
    groundwater_level : Q; demand_surge : Q; price_index : Q }.

(** Modelled from the spec: the named scenarios (section 4.1 and the
    scenario list of the monitor page; the normaliser code is missing). *)
Inductive Scenario : Type := Normal | FloodEvent | PowerFailure | HighDemandCrisis.

(** Modelled from the spec: reading a scenario name; an unknown name is
    invalid (section 7; the normaliser code is missing). *)
Definition scenario_of_name (name : string) : option Scenario :=
  if name =? "Normal" then Some Normal
  else if name =? "Flood Event" then Some FloodEvent
  else if name =? "Power Failure" then Some PowerFailure
  else if name =? "High Demand Crisis" then Some HighDemandCrisis
  else None.

(** Modelled from the spec: a manual override of section 3, naming any
    of the six fields (the normaliser code is missing). *)
Record ManualParams : Type :=
  { manual_rainfall : option Q; manual_power_availability : option Q;
    manual_tanker_count : option Q; manual_groundwater_level : option Q;
    manual_demand_surge : option Q; manual_price_index : option Q }.

(** Modelled from the spec: a missing manual field falls back to the
    preset (section 3; the normaliser code is missing). *)
Definition or_preset (m : option Q) (d : Q) : Q :=
  match m with Some q => q | None => d end.

(** Modelled from the spec: a zone of the registry, with identity, name
    and position (section 3; the registry is missing). *)
Record Zone : Type := { zone_id : nat; zone_name : string; zone_lat : Q; zone_lon : Q }.

(** Modelled from the spec: a zone once scored, immutable from then on
    (section 3; the scoring code is missing). *)
Record ScoredZone : Type := { zone : Zone; score : Q; status : Status }.

(** Modelled from the spec: a dispatch route of section 3, with origin
    and destination zone, path cost and lag time (the router code is
    missing). *)
Record DispatchRoute : Type :=
  { origin : ScoredZone; destination : ScoredZone; path_cost : Q; lag_time : Q }.

(** Modelled from the spec: the summary of an analysis (section 6; the
    service code is missing). *)
Record Summary : Type :=
  { critical_count : nat; warning_count : nat; dispatch_required : bool }.

(** Modelled from the spec: the result of an analysis (section 6,
    without the alerts and recommendations of section 4.7; the service
    code is missing). *)
Record Analysis : Type :=
  { zones : list ScoredZone;
    dispatch_plan : list DispatchRoute;
    dispatch_unavailable : list ScoredZone;
    summary : Summary }.

(** Modelled from the spec: the status tier of a score, by the fixed
    thresholds of section 4.1 (the scoring code is missing):
    score > 70 is critical, 40 <= score <= 70 is warning, score < 40 is
    normal. *)
Definition tier (s : Q) : Status :=
  if negb (Qle_bool s 70) then critical
  else if Qle_bool 40 s then warning
  else normal.

Section Engine.

(** What the specification leaves to the implementation: the preset
    feature vectors, the synthesis of a feature history from a profile,
    the scoring strategy itself (section 9: an injectable strategy
    behind a fixed interface; it sees the zone, hence the zone's
    baseline offset), the zone registry, the static zone graph
    (edges with their cost) and the lag of a path. *)
Variable preset : Scenario -> Features.
Variable synthesize_history : Features -> list Features.
Variable score_model : list Features -> Z -> Zone -> Q.
Variable zone_registry : list Zone.
Variable zone_graph : list (nat * nat * Q).
Variable lag_of_cost : Q -> Q.

(** Modelled from the spec: the scenario normaliser of section 2 (its
    code is missing): the preset of the named scenario, each field
    overridden by the manual value when one is given. *)
Definition normalize (sc : Scenario) (manual : option ManualParams) : Features :=
  let p := preset sc in
  match manual with
  | None => p
  | Some m =>
      {| rainfall := or_preset (manual_rainfall m) (rainfall p);
         power_availability := or_preset (manual_power_availability m) (power_availability p);
         tanker_count := or_preset (manual_tanker_count m) (tanker_count p);
         groundwater_level := or_preset (manual_groundwater_level m) (groundwater_level p);
         demand_surge := or_preset (manual_demand_surge m) (demand_surge p);
         price_index := or_preset (manual_price_index m) (price_index p) |}
  end.

(** Modelled from the spec: scoring one zone (section 4.1; the scoring
    code is missing): the strategy is run on the synthesised history at
    the horizon, the tier is read off the score. *)
Definition score_zone (f : Features) (time_step : Z) (z : Zone) : ScoredZone :=
  let s := score_model (synthesize_history f) time_step z in
  {| zone := z; score := s; status := tier s |}.

(** *** Shortest paths over the zone graph *)

(** Modelled from the spec: the zones adjacent to [u] in the static zone
    graph, with the cost of the edge (section 4.2; the graph code is
    missing). *)
Definition neighbours (u : nat) : list (nat * Q) :=
  flat_map (fun e : nat * nat * Q =>
              let '(a, b, w) := e in
              (if Nat.eqb a u then [(b, w)] else []) ++
              (if Nat.eqb b u then [(a, w)] else []))
           zone_graph.

(** Modelled from the spec: the distance found for zone [u], if any
    (section 4.2; the router code is missing). *)
Fixpoint distance_of (u : nat) (dist : list (nat * Q)) : option Q :=
  match dist with
  | [] => None
  | (v, d) :: rest => if Nat.eqb u v then Some d else distance_of u rest
  end.

(** Modelled from the spec: the queue step of the shortest-path search
    of section 4.2 (the router code is missing): the entry of least
    distance among [x :: rest], and the others. *)
Fixpoint extract_min (x : nat * Q) (rest : list (nat * Q))
  : (nat * Q) * list (nat * Q) :=
  match rest with
  | [] => (x, [])
  | y :: rest' =>
      if Qle_bool (snd x) (snd y)
      then let (m, others) := extract_min x rest' in (m, y :: others)
      else let (m, others) := extract_min y rest' in (m, x :: others)
  end.

(** Modelled from the spec: single-source shortest paths by Dijkstra's
    algorithm (section 4.2; the router code is missing), with a list as
    the queue; [settled] holds the final distances found so far. *)
Fixpoint dijkstra (fuel : nat) (settled frontier : list (nat * Q)) : list (nat * Q) :=
  match fuel with
  | O => settled
  | S fuel' =>
      match frontier with
      | [] => settled
      | x :: rest =>
          let '((u, d), others) := extract_min x rest in
          match distance_of u settled with
          | Some _ => dijkstra fuel' settled others
          | None =>
              dijkstra fuel' ((u, d) :: settled)
                (others ++ map (fun vw : nat * Q => (fst vw, d + snd vw)) (neighbours u))
          end
      end
  end.

(** Modelled from the spec: the distances from [source] to the zones it
    reaches (section 4.2; the router code is missing).  Every turn takes
    one entry off the queue, and entries are added once per settled
    node, one per incident edge end, which bounds the turns. *)
Definition shortest_paths (source : nat) : list (nat * Q) :=
  dijkstra (2 * List.length zone_graph + 2) [] [(source, 0)].

(** *** The dispatch router *)

(** Modelled from the spec: the candidate origins of section 4.2 (the
    router code is missing): the zones that are not critical and reach
    the destination, each with the cost of its path. *)
Definition candidates (dist : list (nat * Q)) (scored : list ScoredZone)
  : list (ScoredZone * Q) :=
  flat_map (fun z =>
              if is_critical (status z) then []
              else match distance_of (zone_id (zone z)) dist with
                   | Some d => [(z, d)]
                   | None => []
                   end)
           scored.

(** Modelled from the spec: the order on candidate origins of section
    4.2 (the router code is missing): lowest cost first, then lowest
    score, then lowest identifier. *)
Definition preferred (a b : ScoredZone * Q) : bool :=
  if negb (Qle_bool (snd b) (snd a)) then true
  else if negb (Qle_bool (snd a) (snd b)) then false
  else if negb (Qle_bool (score (fst b)) (score (fst a))) then true
  else if negb (Qle_bool (score (fst a)) (score (fst b))) then false
  else (zone_id (zone (fst a)) <=? zone_id (zone (fst b)))%nat.

(** Modelled from the spec: the preferred candidate among [a :: rest]
    (section 4.2; the router code is missing). *)
Fixpoint best_of (a : ScoredZone * Q) (rest : list (ScoredZone * Q)) : ScoredZone * Q :=
  match rest with
  | [] => a
  | b :: rest' => best_of (if preferred a b then a else b) rest'
  end.

(** Modelled from the spec: the route into one critical zone, if an
    origin can reach it (section 4.2; the router code is missing). *)
Definition route_to (scored : list ScoredZone) (dest : ScoredZone) : option DispatchRoute :=
  match candidates (shortest_paths (zone_id (zone dest))) scored with
  | [] => None
  | c :: rest =>
      let (o, cost) := best_of c rest in
      Some {| origin := o; destination := dest;
              path_cost := cost; lag_time := lag_of_cost cost |}
  end.

(** Modelled from the spec: the dispatch router of section 4.2 (its
    code is missing): one route per critical zone, from the best
    origin that is not critical and reaches it. *)
Definition plan_dispatch (scored : list ScoredZone) : list DispatchRoute :=
  flat_map (fun z =>
              if is_critical (status z)
              then match route_to scored z with Some r => [r] | None => [] end
              else [])
           scored.

(** Modelled from the spec: the failure mode of section 4.2 (the router
    code is missing): critical zones no origin can reach are flagged,
    not dropped. *)
Definition unavailable (scored : list ScoredZone) : list ScoredZone :=
  filter (fun z =>
            is_critical (status z) &&
            match route_to scored z with Some _ => false | None => true end)
         scored.

(** Modelled from the spec: the number of zones in a tier, for the
    summary of section 6 (the service code is missing). *)
Definition count_status (p : Status -> bool) (scored : list ScoredZone) : nat :=
  List.length (filter (fun z => p (status z)) scored).

(** Modelled from the spec: [analyze_fragility] of section 6 (the
    service code is missing); an unknown scenario name is a
    ValidationError, raised before anything is computed. *)
Definition analyze_fragility (scenario : string) (manual : option ManualParams)
    (time_step : Z) : Outcome Analysis :=
  match scenario_of_name scenario with
  | None => invalid "invalid scenario name"
  | Some sc =>
      let f := normalize sc manual in
      let scored := map (score_zone f time_step) zone_registry in
      let plan := plan_dispatch scored in
      inr {| zones := scored;
             dispatch_plan := plan;
             dispatch_unavailable := unavailable scored;
             summary := {| critical_count := count_status is_critical scored;
                           warning_count := count_status is_warning scored;
                           dispatch_required := negb (Nat.eqb (List.length plan) 0) |} |}
  end.

End Engine.

(** A concrete instance, for running the engine: three zones on a line
    and a scoring formula that grows with rainfall, demand and horizon
    and falls with power and tankers. *)
Definition sample_preset (sc : Scenario) : Features :=
  match sc with
  | Normal =>
      {| rainfall := 5; power_availability := 9 # 10; tanker_count := 10;
         groundwater_level := 5; demand_surge := 1; price_index := 1 |}
  | FloodEvent =>
      {| rainfall := 80; power_availability := 6 # 10; tanker_count := 6;
         groundwater_level := 9; demand_surge := 13 # 10; price_index := 12 # 10 |}
  | PowerFailure =>
      {| rainfall := 5; power_availability := 1 # 10; tanker_count := 8;
         groundwater_level := 5; demand_surge := 12 # 10; price_index := 13 # 10 |}
  | HighDemandCrisis =>
      {| rainfall := 2; power_availability := 8 # 10; tanker_count := 4;
         groundwater_level := 3; demand_surge := 2; price_index := 18 # 10 |}
  end.

Definition sample_history (f : Features) : list Features := [f; f; f].

Definition clamp (lo hi x : Q) : Q :=
  if Qle_bool x lo then lo else if Qle_bool hi x then hi else x.

Definition sample_offset (z : Zone) : Q :=
  match zone_id z with
  | 1%nat => -30
  | 2%nat => 0
  | _ => 15
  end.

Definition sample_model (h : list Features) (time_step : Z) (z : Zone) : Q :=
  match h with
  | [] => 0
  | f :: _ =>
      clamp 0 100
        (rainfall f / 2 + (1 - power_availability f) * 40 + demand_surge f * 10
         - tanker_count f + inject_Z time_step + sample_offset z)
  end.

Definition sample_zones : list Zone :=
  [ {| zone_id := 1; zone_name := "North"; zone_lat := 13; zone_lon := 80 |};
    {| zone_id := 2; zone_name := "Central"; zone_lat := 13; zone_lon := 80 |};
    {| zone_id := 3; zone_name := "South"; zone_lat := 13; zone_lon := 80 |} ].

Definition sample_graph : list (nat * nat * Q) :=
  [ (1%nat, 2%nat, 4%Q); (2%nat, 3%nat, 3%Q) ].

Definition sample_lag (cost : Q) : Q := cost * 5.

Definition sample_analysis (scenario : string) (time_step : Z) : Outcome Analysis :=
  analyze_fragility sample_preset sample_history sample_model sample_zones
    sample_graph sample_lag scenario None time_step.

End Fragility.


(** ** The plume propagation simulator

    The Python service behind /simulate_propagation
    (microservices/services/cascade) is not among the sources; this
    module follows sections 3, 4.3, 6 and 7 of the specification, over
    the real numbers. *)

Module Plume.

Import Core.
Local Open Scope R_scope.

(** Modelled from the spec: the contamination source types of section 3
    (the simulator code is missing). *)
Inductive SourceType : Type := OilSpill | SewageOverflow | IndustrialDischarge.

(** Modelled from the spec: reading a source type name (section 3; the
    simulator code is missing). *)
Definition source_type_of_name (name : string) : option SourceType :=
  if (name =? "Oil Spill")%string then Some OilSpill
  else if (name =? "Sewage Overflow")%string then Some SewageOverflow
  else if (name =? "Industrial Discharge")%string then Some IndustrialDischarge
  else None.

(** Modelled from the spec: a request as the simulator receives it
    (section 6; the simulator code is missing); the position and the
    flow speed may be missing. *)
Record Request : Type :=
  { source_lat : option R; source_lon : option R; source_type : string;
    flow_direction : R; flow_speed : option R; simulation_hours : Z }.

(** Modelled from the spec: a point of the plane the plume is drawn in
    (section 4.3; the simulator code is missing). *)
Definition Point : Type := (R * R)%type.

(** Modelled from the spec: a plume time step of section 3, without its
    risk grid and its infrastructure list (the simulator code is
    missing). *)
Record TimeStep : Type :=
  { hour : nat; centroid : Point; polygon : list Point;
    affected_area : R; population_exposure : R }.

(** Modelled from the spec: the planar area of section 4.3 (the
    simulator code is missing), by the shoelace formula: twice the
    signed area of a polygon given by its vertices in order, the first
    repeated at the end. *)
Fixpoint shoelace (p : list Point) : R :=
  match p with
  | [] => 0
  | a :: rest =>
      match rest with
      | [] => 0
      | b :: _ => (fst a * snd b - fst b * snd a) + shoelace rest
      end
  end.

(** Modelled from the spec: the planar area of a polygon (section 4.3;
    the simulator code is missing). *)
Definition polygon_area (p : list Point) : R := Rabs (shoelace p) / 2.

(** Modelled from the spec: the [k]-th of [n] directions around the
    centroid (section 4.3, a ring of points; the simulator code is
    missing). *)
Definition unit_vertex (n k : nat) : Point :=
  (cos (2 * PI * INR k / INR n), sin (2 * PI * INR k / INR n)).

(** Modelled from the spec: the closed ring of section 4.3 on the unit
    circle, its first vertex repeated at the end (the simulator code is
    missing). *)
Definition unit_ring (n : nat) : list Point :=
  map (unit_vertex n) (seq 0 n) ++ [unit_vertex n 0].

(** Modelled from the spec: the ring around a centroid (section 4.3; the
    simulator code is missing): the points [us] scaled by [r] and moved
    to [c]. *)
Definition place (c : Point) (r : R) (us : list Point) : list Point :=
  map (fun u => (fst c + r * fst u, snd c + r * snd u)) us.

Section Simulator.

(** The configuration the specification leaves open (section 9): the
    diffusion coefficient of each source type, the number of vertices
    of a plume polygon, the population density of the study region,
    the documented default flow speed, and the projection of a
    position to the plane (in metres). *)
Variable diffusion : SourceType -> R.
Variable ring_points : nat.
Variable population_density : R.
Variable default_flow_speed : R.
Variable project : R -> R -> Point.

(** Modelled from the spec: the advection of section 4.3 (the simulator
    code is missing): the centroid moves along the flow direction (a
    compass bearing in degrees) by the flow speed, hour after hour. *)
Definition centroid_at (src : Point) (direction speed : R) (h : nat) : Point :=
  let theta := direction * PI / 180 in
  (fst src + INR h * (speed * 3600) * sin theta,
   snd src + INR h * (speed * 3600) * cos theta).

(** Modelled from the spec: the diffusion law of section 4.3 (the
    simulator code is missing): the radius grows as the square root of
    the hour, scaled by the coefficient of the source type. *)
Definition radius_at (st : SourceType) (h : nat) : R := diffusion st * sqrt (INR h).

(** Modelled from the spec: one time step of section 4.3 (the
    simulator code is missing): the polygon is a closed ring around
    the advected centroid, the affected area its planar area, the
    exposure the area times the density. *)
Definition step_at (src : Point) (st : SourceType) (direction speed : R) (h : nat)
  : TimeStep :=
  let c := centroid_at src direction speed h in
  let ring := place c (radius_at st h) (unit_ring ring_points) in
  {| hour := h; centroid := c; polygon := ring;
     affected_area := polygon_area ring;
     population_exposure := polygon_area ring * population_density |}.

(** Modelled from the spec: [simulate_propagation] of sections 6 and 7
    (the service code is missing): a missing position, an unknown
    source type or a duration below 1 or above 24 is a
    ValidationError raised before anything is computed; a missing flow
    speed takes the default; otherwise one step per hour from 0 to the
    duration inclusive. *)
Definition simulate_propagation (req : Request) : Outcome (list TimeStep) :=
  match source_lat req, source_lon req with
  | Some lat, Some lon =>
      match source_type_of_name (source_type req) with
      | None => invalid "invalid source type"
      | Some st =>
          if (simulation_hours req <? 1)%Z || (24 <? simulation_hours req)%Z
          then invalid "simulation_hours must be between 1 and 24"
          else
            let speed := match flow_speed req with
                         | Some v => v
                         | None => default_flow_speed
                         end in
            inr (map (step_at (project lat lon) st (flow_direction req) speed)
                     (seq 0 (S (Z.to_nat (simulation_hours req)))))
      end
  | _, _ => invalid "source position required"
  end.

End Simulator.

(** The areas of a run never go down from one hour to the next. *)
Definition non_decreasing (areas : list R) : Prop :=
  forall i a b, nth_error areas i = Some a -> nth_error areas (S i) = Some b -> a <= b.

(** The last point of the path [u :: us]. *)
Fixpoint final (u : Point) (us : list Point) : Point :=
  match us with
  | [] => u
  | v :: rest => final v rest
  end.

(** A configuration for running the simulator: oil spreads fastest,
    sixteen vertices, the plane is the graticule scaled to metres. *)
Definition sample_diffusion (st : SourceType) : R :=
  match st with
  | OilSpill => 500
  | SewageOverflow => 300
  | IndustrialDischarge => 200
  end.

Definition sample_project (lat lon : R) : Point := (lon * 111000, lat * 111000).

Definition sample_run (req : Request) : Outcome (list TimeStep) :=
  simulate_propagation sample_diffusion 16 1000 2 sample_project req.

(** The request of the specification's example, at a position off
    Chennai. *)
Definition oil_spill_12h : Request :=
  {| source_lat := Some 13; source_lon := Some 80; source_type := "Oil Spill";
     flow_direction := 180; flow_speed := Some 2; simulation_hours := 12 |}.

End Plume.

(** ** Concrete services and requests, for running the routes *)

Module Examples.

Import Gateway.

Definition python_url : string := "http://localhost:8000".

Definition tanker : value :=
  JObj [("imo", JStr "IMO9300001"); ("type", JStr "Tanker");
        ("lat", JNum 13); ("lon", JNum 80); ("sog", JNum 0); ("cog", JNum 90)].

Definition spill_estimate : value :=
  JObj [("probability", JNum (8 # 10)); ("area_km2", JNum 3); ("spill_polygon", JArr [])].

(** A detector answer in which the distress entry carries no [vessel]. *)
Definition bare_distress : value :=
  JObj [("vessel_statuses",
         JArr [JObj [("imo", JStr "IMO9300001"); ("status", JStr "distress")]]);
        ("summary", JObj [("total", JNum 1); ("distress", JNum 1)])].

(** A detector answer with one distress vessel and one normal vessel. *)
Definition one_distress : value :=
  JObj [("vessel_statuses",
         JArr [JObj [("imo", JStr "IMO9300001"); ("status", JStr "distress");
                     ("vessel", tanker)];
               JObj [("imo", JStr "IMO9300002"); ("status", JStr "normal");
                     ("vessel", JObj [("imo", JStr "IMO9300002")])]]);
        ("summary", JObj [("total", JNum 2); ("distress", JNum 1)])].

Definition is_endpoint (u path : string) : bool := (u =? python_url ++ path)%string.

(** A service that answers the detector with [detected] and the spill
    estimator with [spill]. *)
Definition marine_service (detected : value) (spill : value + string)
  : string -> value -> unit -> (value + string) * unit :=
  fun u _ w =>
    if is_endpoint u "/detect_vessel_anomaly" then (inl detected, w)
    else if is_endpoint u "/detect_oil_spill" then (spill, w)
    else (inr "Request failed with status code 404", w).

Definition spill_failure : string := "Request failed with status code 500".

(** A request of the simulator page, with the given direction and
    duration. *)
Definition simulate_request (lat lon direction hours : value) : value :=
  JObj [("source_lat", lat); ("source_lon", lon); ("source_type", JStr "Oil Spill");
        ("flow_direction", direction); ("flow_speed", JNum 2);
        ("simulation_hours", hours)].

(** What the service is sent for it. *)
Definition simulate_call (lat lon direction hours : value) : Call :=
  {| url := python_url ++ "/simulate_propagation";
     payload := simulate_request lat lon direction hours |}.

Definition history_env : UserHistory.Env :=
  {| UserHistory.now_for_id := 1700000000000; UserHistory.random_tail := "k3j9x2";
     UserHistory.now_for_timestamp := 1700000000000;
     UserHistory.iso_date := "2023-11-14T22:13:20.000Z" |}.

Definition history_request : value :=
  JObj [("userId", JStr "u1"); ("product", JStr "AEGIS");
        ("analysisType", JStr "Fragility Analysis");
        ("summary", JStr "1 critical zones, 1 warning zones.");
        ("data", JObj [])].

End Examples.

(** ** Reading the wire of a marine analysis *)

Module MarineTrace.

Import Gateway.

(** The entries the loop gets to: reading [vs.status] of a nullish entry
    throws, which ends the loop. *)
Fixpoint reached (statuses : list value) : list value :=
  match statuses with
  | [] => []
  | vs :: rest =>
      match prop vs "status" with
      | None => []
      | Some _ => vs :: reached rest
      end
  end.

(** What the route iterates over, given the detector's answer:
    [response.data.vessel_statuses || []]; nothing when reading or
    iterating throws. *)
Definition statuses_of (data : value) : list value :=
  match prop data "vessel_statuses" with
  | Some v =>
      match iterate (or_else v (JArr [])) with
      | Some items => items
      | None => []
      end
  | None => []
  end.

(** An entry the detector classified distress. *)
Definition is_distress (vs : value) : bool :=
  match prop vs "status" with
  | Some status => is_string "distress" status
  | None => false
  end.

Definition detector_call (python_url : string) (vessels : value) : Call :=
  {| url := python_url ++ "/detect_vessel_anomaly";
     payload := JObj [("vessels", or_else vessels JNull)] |}.

Definition spill_call (python_url : string) (vs : value) : Call :=
  {| url := python_url ++ "/detect_oil_spill"; payload := spill_payload vs |}.

Definition is_spill_call (python_url : string) (c : Call) : bool :=
  (url c =? python_url ++ "/detect_oil_spill")%string.

(** [{ ...spillRes.data, vessel_imo: vs.imo }] *)
Definition tagged (vs data : value) : value :=
  JObj (set_prop "vessel_imo"
          (match prop vs "imo" with Some i => i | None => JUndef end)
          (spread data)).

Definition spill_error_line (msg : string) : string :=
  "Oil spill detection error: " ++ msg.

(** The spill result [s] carries the imo of an entry of [statuses] that
    passed the guard. *)
Definition from_entry (statuses : list value) (s : value) : Prop :=
  exists vs imo,
    In vs statuses /\ wants_spill vs = true
    /\ prop vs "imo" = Some imo /\ prop s "vessel_imo" = Some imo.

End MarineTrace.

(** ** Reading the history back (routes/user.js, GET /history) *)

Module HistoryQuery.

Import Gateway UserHistory.

(** [a === b] between a value of one request and a value kept from
    another: primitives compare by value; arrays and objects are
    distinct objects, so never equal. *)
Definition strict_equal (a b : value) : bool :=
  match a, b with
  | JUndef, JUndef => true
  | JNull, JNull => true
  | JBool x, JBool y => Bool.eqb x y
  | JNum x, JNum y => Qeq_bool x y
  | JStr x, JStr y => (x =? y)%string
  | _, _ => false
  end.

(** [h.timestamp] as the number the comparator subtracts.  Every entry
    the POST route stores has a number there ([Date.now()]); anything
    else is read as NaN, which is [None]. *)
Definition timestamp_of (h : value) : option Q :=
  match prop h "timestamp" with
  | Some (JNum q) => Some q
  | _ => None
  end.

(** The comparator [(a, b) => b.timestamp - a.timestamp] says that [x]
    need not move behind [y]: its value on [x, y] is not positive (a NaN
    counts as 0 for [sort]). *)
Definition stays_before (x y : value) : bool :=
  match timestamp_of y, timestamp_of x with
  | Some ty, Some tx => Qle_bool (ty - tx) 0
  | _, _ => true
  end.

Fixpoint insert_sorted (x : value) (l : list value) : list value :=
  match l with
  | [] => [x]
  | y :: ys => if stays_before x y then x :: l else y :: insert_sorted x ys
  end.

(** [.sort((a, b) => b.timestamp - a.timestamp)]: the sort is stable,
    and on numbers the comparator is a consistent order, so the result
    is the one stable arrangement; inserting from the right end builds
    it. *)
Definition sort_newest_first (l : list value) : list value :=
  fold_right insert_sorted [] l.

(** [.filter(h => h.userId === userId)]; [None] is the TypeError of a
    nullish element. *)
Fixpoint filter_by_user (userId : value) (l : list value) : option (list value) :=
  match l with
  | [] => Some []
  | h :: rest =>
      match prop h "userId", filter_by_user userId rest with
      | Some u, Some r => Some (if strict_equal u userId then h :: r else r)
      | _, _ => None
      end
  end.

Definition page_size : nat := 50.

(** [router.get('/history')] on the query [req.query]; the store is only
    read. *)
Definition get_history (query : value) (analysisHistory : list value) : Response :=
  match prop query "userId" with
  | Some userId =>
      if negb (truthy userId) then
        res_status_json 400 (JObj [("error", JStr "userId query param required")])
      else
        match filter_by_user userId analysisHistory with
        | Some mine =>
            res_json (JObj [("history",
                             JArr (firstn page_size (sort_newest_first mine)))])
        | None => res_status_json 500 (JObj [("error", JStr "Failed to fetch history")])
        end
  | None => res_status_json 500 (JObj [("error", JStr "Failed to fetch history")])
  end.

(** The [history] array of an answer; empty when there is none. *)
Definition history_of (resp : Response) : list value :=
  match prop (body resp) "history" with
  | Some (JArr items) => items
  | _ => []
  end.

(** The entry [h] belongs to [userId]. *)
Definition owned_by (userId h : value) : bool :=
  match prop h "userId" with
  | Some u => strict_equal u userId
  | None => false
  end.

(** [a] is at least as recent as [b]. *)
Definition newer_or_equal (a b : value) : Prop :=
  exists ta tb, timestamp_of a = Some ta /\ timestamp_of b = Some tb /\ (tb <= ta)%Q.

(** What the POST route stores: an object with a string id, a truthy
    userId, product and analysisType, and a number as timestamp. *)
Definition stored_entry (e : value) : Prop :=
  exists id userId product analysisType ts,
    prop e "id" = Some (JStr id)
    /\ prop e "userId" = Some userId /\ truthy userId = true
    /\ prop e "product" = Some product /\ truthy product = true
    /\ prop e "analysisType" = Some analysisType /\ truthy analysisType = true
    /\ timestamp_of e = Some ts.

End HistoryQuery.

(** ** The history routes with Firestore (routes/user.js, second version) *)

Module FirestoreHistory.

Import Gateway UserHistory.

(** Firestore is outside the gateway: [add entry w] is
    [db.collection('history').add(entry)], the id of the new document or
    the message of the rejection; [query_user userId w] is the query
    [where('userId', '==', userId).orderBy('timestamp', 'desc').limit(50).get()],
    the documents of the snapshot (id and data) or the message of the
    rejection. *)
Record Firestore (World : Type) : Type :=
  { add : value -> World -> (string + string) * World;
    query_user : value -> World -> (list (string * value) + string) * World }.

Arguments add {World} _ _ _.
Arguments query_user {World} _ _ _.

(** [{ ...target, ...source }]: the properties of [source] written over
    [target] one by one. *)
Definition assign (target source : list (string * value)) : list (string * value) :=
  fold_left (fun acc kv => set_prop (fst kv) (snd kv) acc) source target.

(** [{ id: doc.id, ...doc.data() }] *)
Definition document (doc : string * value) : value :=
  JObj (assign [("id", JStr (fst doc))] (spread (snd doc))).

Section Routes.

Variable World : Type.

(** [db] is set when the Admin SDK initialised, and never changes. *)
Variable db : option (Firestore World).

(** [router.get('/history')] *)
Definition get_history (query : value) (w : World) (analysisHistory : list value)
  : Response * World :=
  match prop query "userId" with
  | Some userId =>
      if negb (truthy userId) then
        (res_status_json 400 (JObj [("error", JStr "userId query param required")]), w)
      else
        match db with
        | Some fs =>
            match query_user fs userId w with
            | (inl docs, w') =>
                (res_json (JObj [("history", JArr (map document docs))]), w')
            | (inr _, w') =>
                (res_status_json 500 (JObj [("error", JStr "Failed to fetch history")]), w')
            end
        | None => (HistoryQuery.get_history query analysisHistory, w)
        end
  | None => (res_status_json 500 (JObj [("error", JStr "Failed to fetch history")]), w)
  end.

(** [router.post('/history')]: the answer, Firestore afterwards and
    [analysisHistory] afterwards. *)
Definition post_history (env : Env) (req_body : value) (w : World)
    (analysisHistory : list value) : Response * World * list value :=
  match prop req_body "userId", prop req_body "product",
        prop req_body "analysisType", prop req_body "data", prop req_body "summary" with
  | Some userId, Some product, Some analysisType, Some data, Some summary =>
      if negb (truthy userId) || negb (truthy product) then
        (res_status_json 400 (JObj [("error", JStr "userId and product are required")]),
         w, analysisHistory)
      else
        let entry :=
          [("userId", userId);
           ("product", product);
           ("analysisType", or_else analysisType (JStr "general"));
           ("summary", or_else summary (JStr ""));
           ("data", data);
           ("timestamp", JNum (inject_Z (Z.of_N (now_for_timestamp env))));
           ("date", JStr (iso_date env))] in
        match db with
        | Some fs =>
            match add fs (JObj entry) w with
            | (inl id, w') =>
                (res_json (JObj [("success", JBool true); ("id", JStr id);
                                 ("entry", JObj entry)]),
                 w', analysisHistory)
            | (inr _, w') =>
                (res_status_json 500 (JObj [("error", JStr "Failed to save analysis")]),
                 w', analysisHistory)
            end
        | None =>
            let localEntry :=
              JObj (assign [("id", JStr (to_base36 (now_for_id env)))] entry) in
            let pushed := analysisHistory ++ [localEntry] in
            let kept :=
              if (history_cap <? List.length pushed)%nat
              then slice_last history_cap pushed else pushed in
            (res_json (JObj [("success", JBool true); ("entry", localEntry)]), w, kept)
        end
  | _, _, _, _, _ =>
      (res_status_json 500 (JObj [("error", JStr "Failed to save analysis")]),
       w, analysisHistory)
  end.

End Routes.

End FirestoreHistory.

(** ** The other proxy routes (routes/aegis.js, marine.js, aquahear.js) *)

Module Proxies.

Import Gateway.

(** [undefined] and [null], the values that have no properties. *)
Definition nullish (v : value) : bool :=
  match v with JUndef | JNull => true | _ => false end.

(** [o.k] of a value that has properties. *)
Definition field (o : value) (k : string) : value :=
  match prop o k with Some v => v | None => JUndef end.

Section Routes.

Variable World : Type.
Variable service : string -> value -> World -> (value + string) * World.

(** [fetch url w] is the service's answer to one GET in state [w]. *)
Variable fetch : string -> World -> (value + string) * World.
Variable PYTHON_URL : string.

(** [await axios.get(url)], giving [response.data]; the wire records
    the call without a payload. *)
Definition axios_get (u : string) : M World value :=
  fun st =>
    let (answer, w') := fetch u (world st) in
    let st' := {| world := w';
                  calls := calls st ++ [{| url := u; payload := JUndef |}];
                  console := console st |} in
    match answer with
    | inl data => (inl data, st')
    | inr msg => (inr (AxiosError msg), st')
    end.

(** GET /api/aegis/sample-data *)
Definition aegis_sample_data : M World Response :=
  try_catch World
    (bind World (axios_get (PYTHON_URL ++ "/sample_data"))
       (fun data => ret World (res_json data)))
    (fun error =>
       bind World (console_error World "Sample data error:" (message error))
         (fun _ => ret World
                     (res_status_json 500
                        (JObj [("error", JStr "Failed to generate sample data")])))).

(** GET /api/marine/vessels *)
Definition marine_vessels : M World Response :=
  try_catch World
    (bind World (axios_get (PYTHON_URL ++ "/vessel_positions"))
       (fun data => ret World (res_json data)))
    (fun error =>
       bind World (console_error World "Vessel positions error:" (message error))
         (fun _ => ret World
                     (res_status_json 500
                        (JObj [("error", JStr "Failed to get vessel positions")])))).

(** POST /api/aquahear/generate *)
Definition aquahear_generate (req_body : value) : M World Response :=
  try_catch World
    (bind World (destructure World req_body "language") (fun language =>
     bind World (destructure World req_body "alert_type") (fun alert_type =>
     bind World (destructure World req_body "custom_text") (fun custom_text =>
     bind World
       (axios_post World service (PYTHON_URL ++ "/generate_audio")
          (JObj [("language", or_else language (JStr "English"));
                 ("alert_type", or_else alert_type (JStr "Stable"));
                 ("custom_text", or_else custom_text JNull)]))
       (fun data => ret World (res_json data))))))
    (fun error =>
       bind World (console_error World "AquaHear generate error:" (message error))
         (fun _ => ret World
                     (res_status_json 500
                        (JObj [("error", JStr "Failed to generate voice alert");
                               ("detail", JStr (message error))])))).

End Routes.

(** The answer of a route that ran to its end. *)
Definition answered {World : Type} (out : (Response + Exn) * State World)
    (resp : Response) : Prop :=
  fst out = inl resp.

(** The payload of the last call on the wire. *)
Definition last_payload {World : Type} (st : State World) : value :=
  match rev (calls st) with
  | c :: _ => payload c
  | [] => JUndef
  end.

(** Every successful run of [c] satisfies [P]. *)
Definition yields {World A : Type} (P : A -> Prop) (c : M World A) : Prop :=
  forall st r st', c st = (inl r, st') -> P r.

(** What the cascade route sends for a body that has properties. *)
Definition forwarded_simulation (req_body : value) : value :=
  JObj [("source_lat", field req_body "source_lat");
        ("source_lon", field req_body "source_lon");
        ("source_type", or_else (field req_body "source_type") (JStr "Oil Spill"));
        ("flow_direction", or_else (field req_body "flow_direction") (JNum 180));
        ("flow_speed", or_else (field req_body "flow_speed") (JNum 2));
        ("simulation_hours", or_else (field req_body "simulation_hours") (JNum 12))].

(** What the aegis route sends for a body that has properties. *)
Definition forwarded_analysis (req_body : value) : value :=
  JObj [("scenario", or_else (field req_body "scenario") (JStr "Normal"));
        ("time_step", or_else (field req_body "time_step") (JNum 0));
        ("manual_params", or_else (field req_body "manual_params") JNull)].

(** What the aquahear route sends for a body that has properties. *)
Definition forwarded_voice (req_body : value) : value :=
  JObj [("language", or_else (field req_body "language") (JStr "English"));
        ("alert_type", or_else (field req_body "alert_type") (JStr "Stable"));
        ("custom_text", or_else (field req_body "custom_text") JNull)].

(** The state after one call whose answer left the service in [w]; a
    failure also leaves a line on the console. *)
Definition after_call {World : Type} (st : State World) (w : World) (c : Call)
    (logged : list string) : State World :=
  {| world := w; calls := calls st ++ [c]; console := console st ++ logged |}.

(** A proxied call and its two outcomes: the data goes back as it is
    with status 200, a rejection becomes status 500 with [failure]. *)
Definition proxied {World : Type} (st : State World) (c : Call)
    (answer : (value + string) * World) (label : string) (failure : string -> value)
    : (Response + Exn) * State World :=
  match answer with
  | (inl data, w) => (inl (res_json data), after_call st w c [])
  | (inr msg, w) =>
      (inl (res_status_json 500 (failure msg)),
       after_call st w c [(label ++ " " ++ msg)%string])
  end.

End Proxies.

(** ** The pages that call the routes (frontend/src/pages) *)

Module Pages.

Import Gateway.

(** What the browser's axios makes of an exchange with the gateway: an
    answer with a 2xx status resolves, any other answer rejects with the
    response attached, and no answer at all rejects without one. *)
Inductive Exchange : Type :=
| Answered (resp : Response)
| Unreachable.

Definition resolves (resp : Response) : bool :=
  (200 <=? status_code resp)%nat && (status_code resp <? 300)%nat.

(** [err.response?.data?.error || fallback] *)
Definition shown_error (x : Exchange) (fallback : string) : value :=
  match x with
  | Answered resp =>
      or_else (match prop (body resp) "error" with Some v => v | None => JUndef end)
              (JStr fallback)
  | Unreachable => JStr fallback
  end.

(** *** CascadeSimulator.jsx *)

(** The state of the simulator page; [sourceLocation] is the clicked
    point (lat, lng), if any. *)
Record CascadePage : Type :=
  { sourceType : string; sourceLocation : option (Q * Q);
    flowDirection : Z; flowSpeed : Q; simHours : Z;
    currentHour : Z; result : value; loading : bool; error : value }.

(** The body [runSimulation] posts. *)
Definition simulation_body (p : CascadePage) (loc : Q * Q) : value :=
  JObj [("source_lat", JNum (fst loc));
        ("source_lon", JNum (snd loc));
        ("source_type", JStr (sourceType p));
        ("flow_direction", JNum (inject_Z (flowDirection p)));
        ("flow_speed", JNum (flowSpeed p));
        ("simulation_hours", JNum (inject_Z (simHours p)))].

(** [runSimulation]: the page after the click, [exchange] being what
    comes of the POST to /api/cascade/simulate. *)
Definition runSimulation (exchange : value -> Exchange) (p : CascadePage) : CascadePage :=
  match sourceLocation p with
  | None =>
      {| sourceType := sourceType p; sourceLocation := sourceLocation p;
         flowDirection := flowDirection p; flowSpeed := flowSpeed p;
         simHours := simHours p; currentHour := currentHour p;
         result := result p; loading := loading p;
         error := JStr "Please click on the map to set contamination source location." |}
  | Some loc =>
      match exchange (simulation_body p loc) with
      | Answered resp =>
          if resolves resp then
            {| sourceType := sourceType p; sourceLocation := sourceLocation p;
               flowDirection := flowDirection p; flowSpeed := flowSpeed p;
               simHours := simHours p; currentHour := 0;
               result := body resp; loading := false; error := JStr "" |}
          else
            {| sourceType := sourceType p; sourceLocation := sourceLocation p;
               flowDirection := flowDirection p; flowSpeed := flowSpeed p;
               simHours := simHours p; currentHour := currentHour p;
               result := result p; loading := false;
               error := shown_error (Answered resp)
                          "Simulation failed. Ensure backend services are running." |}
      | Unreachable =>
          {| sourceType := sourceType p; sourceLocation := sourceLocation p;
             flowDirection := flowDirection p; flowSpeed := flowSpeed p;
             simHours := simHours p; currentHour := currentHour p;
             result := result p; loading := false;
             error := shown_error Unreachable
                        "Simulation failed. Ensure backend services are running." |}
      end
  end.

(** The values the page's controls can hold: a source type of the
    select, a direction of the 0..360 slider, a speed of the 0.5..5
    slider, a duration of the 6..24 slider. *)
Definition within_controls (p : CascadePage) : Prop :=
  sourceType p <> ""%string
  /\ (0 <= flowDirection p <= 360)%Z
  /\ (1 # 2 <= flowSpeed p)%Q /\ (flowSpeed p <= 5)%Q
  /\ (6 <= simHours p <= 24)%Z.

(** What the gateway makes of a route's run, as the browser sees it. *)
Definition seen {World : Type} (out : (Response + Exn) * State World) : Exchange :=
  match fst out with
  | inl resp => Answered resp
  | inr _ => Unreachable
  end.

(** *** AegisMonitor.jsx *)

(** The part of the monitor page that goes into a request. *)
Record AegisPage : Type :=
  { mode : string; scenario : string; timeStep : Z;
    manualParams : list (string * value) }.

(** The payload [runAnalysis] posts to /api/aegis/analyze. *)
Definition analysis_payload (p : AegisPage) : value :=
  JObj [("scenario", JStr (if (mode p =? "scenario")%string then scenario p else "Normal"));
        ("time_step", JNum (inject_Z (timeStep p)));
        ("manual_params", if (mode p =? "manual")%string then JObj (manualParams p) else JNull)].

(** The simulator page as it opens, with a point clicked and the
    direction slider moved to 0. *)
Definition page_turned_north : CascadePage :=
  {| sourceType := "Oil Spill"; sourceLocation := Some (13, 80);
     flowDirection := 0; flowSpeed := 2; simHours := 12;
     currentHour := 3; result := JNull; loading := false; error := JStr "" |}.

(** The monitor page with the flood scenario chosen, at time step 0. *)
Definition page_flood_now : AegisPage :=
  {| mode := "scenario"; scenario := "Flood Event"; timeStep := 0;
     manualParams := [("rainfall", JNum 5); ("power_availability", JNum (9 # 10));
                      ("tanker_count", JNum 10); ("groundwater_level", JNum 5);
                      ("demand_surge", JNum 1); ("price_index", JNum 1)] |}.

End Pages.

(** ** Saved analyses, for running the history routes *)

Module HistorySample.

Import UserHistory Examples.

Definition at_time (t : N) (date : string) : Env :=
  {| now_for_id := t; random_tail := "k3j9x2"; now_for_timestamp := t; iso_date := date |}.

Definition analysis_of (user product : string) : value :=
  JObj [("userId", JStr user); ("product", JStr product); ("data", JObj [])].

(** Three POSTs: two of user u1, one of user u2 between them. *)
Definition history_sample : list (Env * value) :=
  [ (at_time 1700000000000 "2023-11-14T22:13:20.000Z", analysis_of "u1" "AEGIS");
    (at_time 1700000060000 "2023-11-14T22:14:20.000Z", analysis_of "u2" "Marine");
    (at_time 1700000120000 "2023-11-14T22:15:20.000Z", analysis_of "u1" "AquaCascade") ].

(** A store at its cap: what 500 POSTs of user u1, a minute apart, leave. *)
Definition full_store : list value :=
  serve (map (fun i => (at_time (1700000000000 + 60000 * N.of_nat i)
                          "2023-11-14T22:13:20.000Z",
                        analysis_of "u1" "AEGIS"))
             (seq 0 500))
        [].

End HistorySample.

(** ** The marine route, stage by stage *)

Module MarineRun.

Import Gateway MarineTrace.

(** What the catch of the marine route leaves: a 500 answer with the
    message as detail, and a line on the console. *)
Definition marine_failure {World : Type} (e : Exn) (st : State World)
  : (Response + Exn) * State World :=
  (inl (res_status_json 500
          (JObj [("error", JStr "Failed to run marine analysis");
                 ("detail", JStr (message e))])),
   {| world := world st; calls := calls st;
      console := console st ++ [("Marine analyze error:" ++ " " ++ message e)%string] |}).

(** The 200 answer of the marine route: the detector's data with
    [oil_spills] written over it. *)
Definition marine_answer (data : value) (spills : list value) : Response :=
  res_json (JObj (set_prop "oil_spills" (JArr spills) (spread data))).

(** The state once the detector has answered and left the service in
    [w1]. *)
Definition detected {World : Type} (python_url : string) (vessels : value)
    (st : State World) (w1 : World) : State World :=
  {| world := w1; calls := calls st ++ [detector_call python_url vessels];
     console := console st |}.

(** What reading [vs.status] throws when [vs] is [null] or [undefined]. *)
Definition no_status (vs : value) : Exn :=
  TypeError ("Cannot read properties of " ++ nullish_name vs
             ++ " (reading '" ++ "status" ++ "')")%string.

(** The spill result [s] is what the service answered for an entry of
    [statuses] that passed the guard, with that entry's imo written on
    it. *)
Definition estimate_of {World : Type}
    (service : string -> value -> World -> (value + string) * World)
    (python_url : string) (statuses : list value) (s : value) : Prop :=
  exists vs data w w',
    In vs statuses /\ wants_spill vs = true
    /\ service (python_url ++ "/detect_oil_spill")%string (spill_payload vs) w
       = (inl data, w')
    /\ s = tagged vs data.

End MarineRun.

(** * Properties *)

(** ** The cascade route and falsy defaults *)

Module CascadeFacts.

Import Gateway Examples.

Section WithService.

Variable World : Type.
Variable service : string -> value -> World -> (value + string) * World.

(** What the service is sent for a request of the simulator page: the
    direction and the duration go through [|| 180] and [|| 12]. *)
Lemma simulate_request_wire (lat lon direction hours : value) (st : State World) :
  calls (snd (cascade_simulate World service python_url
                (simulate_request lat lon direction hours) st))
  = calls st ++ [simulate_call lat lon (or_else direction (JNum 180))
                   (or_else hours (JNum 12))].
Proof.
  unfold cascade_simulate, simulate_request, simulate_call, try_catch, bind,
    destructure, ret, axios_post, console_error; cbn.
  destruct (service _ _ (world st)) as [[data | msg] w1]; cbn; auto.
Qed.

(** C1: a request with simulation_hours = 0 is not rejected by the
    route: [simulation_hours || 12] takes 0 for a missing value, so the
    service is asked for a 12 hour run, exactly as if 12 had been
    requested; 30 is forwarded as it is. *)
Theorem zero_hours_forwarded_as_twelve :
  forall (lat lon : value) (st : State World),
    cascade_simulate World service python_url
      (simulate_request lat lon (JNum 180) (JNum 0)) st
    = cascade_simulate World service python_url
        (simulate_request lat lon (JNum 180) (JNum 12)) st
    /\ calls (snd (cascade_simulate World service python_url
                     (simulate_request lat lon (JNum 180) (JNum 0)) st))
       = calls st ++ [simulate_call lat lon (JNum 180) (JNum 12)]
    /\ calls (snd (cascade_simulate World service python_url
                     (simulate_request lat lon (JNum 180) (JNum 30)) st))
       = calls st ++ [simulate_call lat lon (JNum 180) (JNum 30)].
Proof.
  intros lat lon st.
  unfold cascade_simulate, simulate_request, simulate_call, try_catch, bind,
    destructure, ret, axios_post, console_error; cbn.
  destruct (service _ _ (world st)) as [[data | msg] w1] eqn:E12;
    destruct (service _ (JObj [_; _; _; _; _; ("simulation_hours", JNum 30)]) (world st))
      as [[data' | msg'] w2]; cbn; auto.
Qed.

(** C2: a request with flow_direction = 0 does not run with direction
    0: [flow_direction || 180] takes 0 for a missing value, so the
    service is asked for direction 180, exactly as if 180 had been
    requested. *)
Theorem zero_direction_forwarded_as_180 :
  forall (lat lon : value) (st : State World),
    cascade_simulate World service python_url
      (simulate_request lat lon (JNum 0) (JNum 12)) st
    = cascade_simulate World service python_url
        (simulate_request lat lon (JNum 180) (JNum 12)) st
    /\ calls (snd (cascade_simulate World service python_url
                     (simulate_request lat lon (JNum 0) (JNum 12)) st))
       = calls st ++ [simulate_call lat lon (JNum 180) (JNum 12)].
Proof.
  intros lat lon st.
  unfold cascade_simulate, simulate_request, simulate_call, try_catch, bind,
    destructure, ret, axios_post, console_error; cbn.
  destruct (service _ _ (world st)) as [[data | msg] w1]; cbn; auto.
Qed.

End WithService.

End CascadeFacts.

(** ** The marine route: which vessels get a spill estimate *)

Module MarineFacts.

Import Gateway MarineTrace MarineRun Examples.

Section WithService.

Variable World : Type.
Variable service : string -> value -> World -> (value + string) * World.
Variable python_url : string.

Local Abbreviation step := (spill_step World service python_url).
Local Abbreviation loop := (spill_loop World service python_url).

(** One turn of the loop, case by case. *)
Lemma spill_step_cases (acc : list value) (vs : value) (st : State World) :
  (prop vs "status" = None /\ exists e, step acc vs st = (inr e, st))
  \/ (prop vs "status" <> None /\ wants_spill vs = false
      /\ step acc vs st = (inl acc, st))
  \/ (prop vs "status" <> None /\ wants_spill vs = true /\
      exists data w',
        service (python_url ++ "/detect_oil_spill") (spill_payload vs) (world st)
        = (inl data, w')
        /\ step acc vs st
           = (inl (acc ++ [tagged vs data]),
              {| world := w'; calls := calls st ++ [spill_call python_url vs];
                 console := console st |}))
  \/ (prop vs "status" <> None /\ wants_spill vs = true /\
      exists msg w',
        service (python_url ++ "/detect_oil_spill") (spill_payload vs) (world st)
        = (inr msg, w')
        /\ step acc vs st
           = (inl acc,
              {| world := w'; calls := calls st ++ [spill_call python_url vs];
                 console := console st ++ [spill_error_line msg] |})).
Proof.
  unfold spill_step, wants_spill, spill_call, tagged, spill_error_line.
  unfold spill_payload.
  destruct (prop vs "status") as [status |] eqn:Hs.
  2:{ left. split; [reflexivity |]. destruct vs; cbn in Hs; try discriminate;
      unfold read, bind, throw; cbn; eauto. }
  right.
  assert (Hv : exists vessel, prop vs "vessel" = Some vessel)
    by (destruct vs; cbn in Hs |- *; try discriminate; eauto).
  assert (Hi : exists imo, prop vs "imo" = Some imo)
    by (destruct vs; cbn in Hs |- *; try discriminate; eauto).
  destruct Hv as [vessel Hv]. destruct Hi as [imo Hi].
  unfold read, bind, try_catch, ret, axios_post, console_error.
  rewrite Hs, Hv, Hi.
  destruct (is_string "distress" status); cbn.
  2:{ left. repeat split; congruence. }
  destruct (truthy vessel); cbn.
  2:{ left. repeat split; congruence. }
  right.
  destruct (service _ _ (world st)) as [[data | msg] w'] eqn:E; cbn.
  - left. repeat split; try congruence. exists data, w'. split; reflexivity.
  - right. repeat split; try congruence. exists msg, w'. split; reflexivity.
Qed.

Lemma lookup_set_prop (k : string) (v : value) (props : list (string * value)) :
  lookup k (set_prop k v props) = Some v.
Proof.
  induction props as [| [k' v'] rest IH]; cbn.
  - now rewrite String.eqb_refl.
  - destruct (k =? k')%string eqn:E; cbn; rewrite ?String.eqb_refl, ?E; auto.
Qed.

Lemma guard_implies_distress (vs : value) :
  wants_spill vs = true -> is_distress vs = true.
Proof.
  unfold wants_spill, is_distress.
  destruct (prop vs "status"); [| discriminate].
  destruct (prop vs "vessel"); [| discriminate].
  intros H. now apply andb_true_iff in H.
Qed.

Lemma tagged_from_entry (vs data : value) (statuses : list value) :
  In vs statuses -> wants_spill vs = true -> from_entry statuses (tagged vs data).
Proof.
  intros Hin Hw.
  assert (Hi : exists imo, prop vs "imo" = Some imo).
  { unfold wants_spill in Hw. destruct vs; cbn in Hw |- *; try discriminate; eauto. }
  destruct Hi as [imo Hi].
  exists vs, imo. repeat split; auto.
  unfold tagged. rewrite Hi. cbn. now rewrite lookup_set_prop.
Qed.

(** The wire after the loop: one spill call per reached entry that
    passes the guard, in order. *)
Lemma spill_loop_trace (statuses : list value) :
  forall acc st,
    calls (snd (loop statuses acc st))
    = calls st ++ map (spill_call python_url) (filter wants_spill (reached statuses)).
Proof.
  induction statuses as [| vs rest IH]; intros acc st; cbn [spill_loop reached].
  - cbn. now rewrite app_nil_r.
  - unfold bind at 1.
    destruct (spill_step_cases acc vs st)
      as [[Hn [e He]] | [[Hs [Hw He]] | [[Hs [Hw (x & w' & _ & He)]] | [Hs [Hw (x & w' & _ & He)]]]]];
      rewrite He.
    + rewrite Hn. cbn. now rewrite app_nil_r.
    + destruct (prop vs "status"); [| congruence].
      cbn [filter]. rewrite Hw. apply IH.
    + destruct (prop vs "status"); [| congruence].
      cbn [filter]. rewrite Hw, IH. cbn. now rewrite <- app_assoc.
    + destruct (prop vs "status"); [| congruence].
      cbn [filter]. rewrite Hw, IH. cbn. now rewrite <- app_assoc.
Qed.

(** What the loop adds to [spillResults] comes from guarded entries. *)
Lemma spill_loop_results (statuses : list value) :
  forall acc st r st',
    loop statuses acc st = (inl r, st') ->
    exists new, r = acc ++ new /\ Forall (from_entry statuses) new.
Proof.
  induction statuses as [| vs rest IH]; intros acc st r st'; cbn [spill_loop].
  - unfold ret. intros H. inversion H. exists []. now rewrite app_nil_r.
  - unfold bind at 1.
    assert (Hweak : forall new, Forall (from_entry rest) new ->
                                Forall (from_entry (vs :: rest)) new).
    { intros new. apply Forall_impl. intros s (v & i & Hin & H).
      exists v, i. split; [now right | exact H]. }
    destruct (spill_step_cases acc vs st)
      as [[Hn [e He]] | [[Hs [Hw He]] | [[Hs [Hw (x & w' & _ & He)]] | [Hs [Hw (x & w' & _ & He)]]]]];
      rewrite He; intros H.
    + discriminate.
    + destruct (IH _ _ _ _ H) as (new & -> & Hnew). exists new. auto.
    + destruct (IH _ _ _ _ H) as (new & -> & Hnew).
      exists (tagged vs x :: new). rewrite <- app_assoc. split; [reflexivity |].
      constructor; [apply tagged_from_entry; [now left | exact Hw] | auto].
    + destruct (IH _ _ _ _ H) as (new & -> & Hnew). exists new. auto.
Qed.

(** C3: when the detector call succeeds, the spill estimator is called
    exactly once, in order, for each status entry the loop reaches that
    has status distress and a vessel payload, and for no other entry;
    the route always answers, and every element of oil_spills in a 200
    answer carries the imo of such an entry. *)
Theorem spill_estimates_follow_guarded_distress :
  forall (req_body vessels data : value) (w w1 : World),
    prop req_body "vessels" = Some vessels ->
    service (python_url ++ "/detect_vessel_anomaly")
            (JObj [("vessels", or_else vessels JNull)]) w = (inl data, w1) ->
    exists resp st',
      marine_analyze World service python_url req_body (start w) = (inl resp, st')
      /\ calls st'
         = detector_call python_url vessels
           :: map (spill_call python_url)
                (filter wants_spill (reached (statuses_of data)))
      /\ (forall vs, In vs (filter wants_spill (reached (statuses_of data))) ->
                     is_distress vs = true)
      /\ (status_code resp = 200%nat ->
          exists spills,
            prop (body resp) "oil_spills" = Some (JArr spills)
            /\ Forall (from_entry (statuses_of data)) spills).
Proof.
  intros req_body vessels data w w1 Hbody Hsvc.
  assert (Hguard : forall l vs, In vs (filter wants_spill l) -> is_distress vs = true).
  { intros l vs Hin. apply filter_In in Hin. now apply guard_implies_distress. }
  unfold marine_analyze, try_catch, bind at 1, read at 1.
  rewrite Hbody. unfold ret at 1. unfold bind at 1, axios_post at 1.
  cbn [world start]. rewrite Hsvc. cbn [calls console app].
  unfold statuses_of, detector_call.
  unfold bind at 1, read at 1.
  destruct (prop data "vessel_statuses") as [vessel_statuses |].
  2:{ eexists _, _. split; [reflexivity |]. split; [reflexivity |].
      split; [apply Hguard |]. cbn. discriminate. }
  unfold ret at 1. unfold bind at 1, for_of.
  destruct (iterate (or_else vessel_statuses (JArr []))) as [items |].
  2:{ eexists _, _. split; [reflexivity |]. split; [reflexivity |].
      split; [apply Hguard |]. cbn. discriminate. }
  unfold ret at 1. unfold bind at 1.
  set (st1 := {| world := w1; calls := _; console := _ |}).
  pose proof (spill_loop_trace items [] st1) as Htrace.
  destruct (spill_loop World service python_url items [] st1) as [[r | e] st2] eqn:Eloop.
  - destruct (spill_loop_results items [] st1 r st2 Eloop) as (new & -> & Hnew).
    cbn in Htrace. unfold ret. eexists _, _. split; [reflexivity |].
    split; [exact Htrace |]. split; [apply Hguard |].
    intros _. exists new. split; [| exact Hnew].
    cbn. now rewrite lookup_set_prop.
  - cbn in Htrace. unfold console_error, ret. cbn.
    eexists _, _. split; [reflexivity |].
    split; [exact Htrace |]. split; [apply Hguard |]. cbn. discriminate.
Qed.

(** The route once the detector has answered. *)
Lemma marine_run (req_body vessels data : value) (st : State World) (w1 : World) :
  prop req_body "vessels" = Some vessels ->
  service (python_url ++ "/detect_vessel_anomaly")
          (JObj [("vessels", or_else vessels JNull)]) (world st) = (inl data, w1) ->
  marine_analyze World service python_url req_body st
  = match prop data "vessel_statuses" with
    | None =>
        marine_failure
          (TypeError ("Cannot read properties of " ++ nullish_name data
                      ++ " (reading '" ++ "vessel_statuses" ++ "')"))
          (detected python_url vessels st w1)
    | Some vessel_statuses =>
        match iterate (or_else vessel_statuses (JArr [])) with
        | None =>
            marine_failure (TypeError "statuses is not iterable")
              (detected python_url vessels st w1)
        | Some items =>
            match spill_loop World service python_url items []
                    (detected python_url vessels st w1) with
            | (inl spills, st2) => (inl (marine_answer data spills), st2)
            | (inr e, st2) => marine_failure e st2
            end
        end
    end.
Proof.
  intros Hbody Hsvc.
  unfold marine_analyze, try_catch, bind at 1, read at 1.
  rewrite Hbody. unfold ret at 1. unfold bind at 1, axios_post at 1.
  rewrite Hsvc. fold (detector_call python_url vessels).
  fold (detected python_url vessels st w1).
  unfold bind at 1, read at 1.
  destruct (prop data "vessel_statuses") as [vessel_statuses |]; [| reflexivity].
  unfold ret at 1. unfold bind at 1, for_of.
  destruct (iterate (or_else vessel_statuses (JArr []))) as [items |]; [| reflexivity].
  unfold ret at 1. unfold bind at 1.
  destruct (spill_loop World service python_url items [] (detected python_url vessels st w1))
    as [[spills | e] st2]; reflexivity.
Qed.

(** The loop over a list in two parts. *)
Lemma spill_loop_app (l1 l2 : list value) :
  forall acc st,
    loop (l1 ++ l2) acc st
    = match loop l1 acc st with
      | (inl r, st1) => loop l2 r st1
      | (inr e, st1) => (inr e, st1)
      end.
Proof.
  induction l1 as [| vs rest IH]; intros acc st; cbn [app spill_loop].
  - reflexivity.
  - unfold bind. destruct (step acc vs st) as [[r | e] st1]; [apply IH | reflexivity].
Qed.

(** What a turn throws on an entry without properties. *)
Lemma spill_step_null (acc : list value) (vs : value) (st : State World) :
  prop vs "status" = None -> step acc vs st = (inr (no_status vs), st).
Proof.
  intros Hn. unfold spill_step, bind at 1, read at 1. rewrite Hn. reflexivity.
Qed.

(** The loop throws only on an entry without properties. *)
Lemma spill_loop_throws (statuses : list value) :
  forall acc st e st',
    loop statuses acc st = (inr e, st') ->
    exists bad, In bad statuses /\ prop bad "status" = None /\ e = no_status bad.
Proof.
  induction statuses as [| vs rest IH]; intros acc st e st'; cbn [spill_loop].
  - unfold ret. discriminate.
  - unfold bind at 1.
    destruct (spill_step_cases acc vs st)
      as [[Hn _] | [[Hs [Hw He]] | [[Hs [Hw (x & w' & _ & He)]] | [Hs [Hw (x & w' & _ & He)]]]]].
    + rewrite (spill_step_null acc vs st Hn). intros H. inversion H; subst.
      exists vs. split; [now left | split; [exact Hn | reflexivity]].
    + rewrite He. intros H. destruct (IH _ _ _ _ H) as (bad & Hin & Hbad).
      exists bad. split; [now right | exact Hbad].
    + rewrite He. intros H. destruct (IH _ _ _ _ H) as (bad & Hin & Hbad).
      exists bad. split; [now right | exact Hbad].
    + rewrite He. intros H. destruct (IH _ _ _ _ H) as (bad & Hin & Hbad).
      exists bad. split; [now right | exact Hbad].
Qed.

(** The loop only ever adds lines to the console. *)
Lemma spill_loop_console (statuses : list value) :
  forall acc st, exists lines,
    console (snd (loop statuses acc st)) = console st ++ lines.
Proof.
  induction statuses as [| vs rest IH]; intros acc st; cbn [spill_loop].
  - exists []. cbn. now rewrite app_nil_r.
  - unfold bind at 1.
    destruct (spill_step_cases acc vs st)
      as [[Hn [e He]] | [[Hs [Hw He]] | [[Hs [Hw (x & w' & _ & He)]] | [Hs [Hw (x & w' & _ & He)]]]]];
      rewrite He.
    + exists []. cbn. now rewrite app_nil_r.
    + apply IH.
    + destruct (IH (acc ++ [tagged vs x])
                  {| world := w'; calls := calls st ++ [spill_call python_url vs];
                     console := console st |}) as [lines Hl].
      exists lines. exact Hl.
    + destruct (IH acc
                  {| world := w'; calls := calls st ++ [spill_call python_url vs];
                     console := console st ++ [spill_error_line x] |}) as [lines Hl].
      exists ([spill_error_line x] ++ lines). rewrite Hl. cbn [console].
      now rewrite <- app_assoc.
Qed.

Lemma estimate_of_more (l1 l2 l : list value) (s : value) :
  (forall vs, In vs l -> In vs (l1 ++ l2)) ->
  estimate_of service python_url l s -> estimate_of service python_url (l1 ++ l2) s.
Proof.
  intros Hsub (vs & data & w & w' & Hin & H). exists vs, data, w, w'. split; auto.
Qed.

(** What the loop adds to [spillResults] is what the service answered
    for guarded entries. *)
Lemma spill_loop_estimates (statuses : list value) :
  forall acc st r st',
    loop statuses acc st = (inl r, st') ->
    exists new, r = acc ++ new /\ Forall (estimate_of service python_url statuses) new.
Proof.
  induction statuses as [| vs rest IH]; intros acc st r st'; cbn [spill_loop].
  - unfold ret. intros H. inversion H. exists []. now rewrite app_nil_r.
  - unfold bind at 1.
    assert (Hweak : forall new, Forall (estimate_of service python_url rest) new ->
                                Forall (estimate_of service python_url (vs :: rest)) new).
    { intros new. apply Forall_impl. intros s.
      apply (estimate_of_more [vs] rest rest). intros v Hv. now right. }
    destruct (spill_step_cases acc vs st)
      as [[Hn [e He]] | [[Hs [Hw He]] | [[Hs [Hw (x & w' & Hx & He)]] | [Hs [Hw (x & w' & _ & He)]]]]];
      rewrite He; intros H.
    + discriminate.
    + destruct (IH _ _ _ _ H) as (new & -> & Hnew). exists new. auto.
    + destruct (IH _ _ _ _ H) as (new & -> & Hnew).
      exists (tagged vs x :: new). rewrite <- app_assoc. split; [reflexivity |].
      constructor; [| auto].
      exists vs, x, (world st), w'. repeat split; auto. now left.
    + destruct (IH _ _ _ _ H) as (new & -> & Hnew). exists new. auto.
Qed.

(** C4: when the spill estimate of a guarded distress entry fails, the
    turn of the loop does not throw, adds nothing to spillResults and
    writes the error message to the console, and the loop goes on with
    the remaining entries; the route then answers either 200 with the
    detector's data and, as oil_spills, the estimates the service gave
    for the other entries, or (when a later entry is null) 500 with the
    message of that TypeError: neither answer holds anything of the
    failed estimate, which is on the console only. *)
Theorem failed_estimate_is_logged_and_skipped :
  forall (acc rest : list value) (vs : value) (st : State World) (msg : string) (w' : World),
    wants_spill vs = true ->
    service (python_url ++ "/detect_oil_spill") (spill_payload vs) (world st)
    = (inr msg, w') ->
    let st' := {| world := w';
                  calls := calls st ++ [spill_call python_url vs];
                  console := console st ++ [spill_error_line msg] |} in
    spill_step World service python_url acc vs st = (inl acc, st')
    /\ spill_loop World service python_url (vs :: rest) acc st
       = spill_loop World service python_url rest acc st'
    /\ (forall (req_body vessels data : value) (w w1 : World) (before : list value),
           prop req_body "vessels" = Some vessels ->
           service (python_url ++ "/detect_vessel_anomaly")
                   (JObj [("vessels", or_else vessels JNull)]) w = (inl data, w1) ->
           statuses_of data = before ++ vs :: rest ->
           spill_loop World service python_url before []
             (detected python_url vessels (start w) w1) = (inl acc, st) ->
           exists resp fin,
             marine_analyze World service python_url req_body (start w) = (inl resp, fin)
             /\ In (spill_error_line msg) (console fin)
             /\ ((exists more,
                     spill_loop World service python_url rest acc st'
                     = (inl (acc ++ more), fin)
                     /\ resp = marine_answer data (acc ++ more)
                     /\ Forall (estimate_of service python_url (before ++ rest))
                               (acc ++ more))
                 \/ (exists bad,
                        In bad rest /\ prop bad "status" = None
                        /\ resp
                           = res_status_json 500
                               (JObj [("error", JStr "Failed to run marine analysis");
                                      ("detail", JStr (message (no_status bad)))])))).
Proof.
  intros acc rest vs st msg w' Hw Hsvc st'.
  assert (Hstep : spill_step World service python_url acc vs st = (inl acc, st')).
  { destruct (spill_step_cases acc vs st)
      as [[Hn _] | [[_ [Hw' _]] | [[_ [_ (x & w2 & Hs & _)]] | [_ [_ (x & w2 & Hs & He)]]]]].
    - unfold wants_spill in Hw. rewrite Hn in Hw. discriminate.
    - congruence.
    - congruence.
    - rewrite Hsvc in Hs. inversion Hs; subst. exact He. }
  assert (Hloop : spill_loop World service python_url (vs :: rest) acc st
                  = spill_loop World service python_url rest acc st').
  { cbn [spill_loop]. unfold bind at 1. now rewrite Hstep. }
  split; [exact Hstep |]. split; [exact Hloop |].
  intros req_body vessels data w w1 before Hbody Hdet Hstatuses Hbefore.
  rewrite (marine_run req_body vessels data (start w) w1 Hbody Hdet).
  unfold statuses_of in Hstatuses.
  destruct (prop data "vessel_statuses") as [vessel_statuses |];
    [| now destruct before].
  destruct (iterate (or_else vessel_statuses (JArr []))) as [items |];
    [| now destruct before].
  subst items. rewrite spill_loop_app, Hbefore, Hloop.
  destruct (spill_loop_console rest acc st') as [lines Hlines].
  destruct (spill_loop_estimates before [] _ _ _ Hbefore) as (old & Hold & Hfrom).
  cbn [app] in Hold. subst old.
  destruct (spill_loop World service python_url rest acc st') as [[r | e] fin] eqn:Erest;
    cbn [snd] in Hlines.
  - destruct (spill_loop_estimates rest acc st' r fin Erest) as (more & -> & Hmore).
    exists (marine_answer data (acc ++ more)), fin. split; [reflexivity |]. split.
    + rewrite Hlines. subst st'. cbn [console]. rewrite <- app_assoc.
      apply in_or_app. right. now left.
    + left. exists more. split; [reflexivity |]. split; [reflexivity |].
      apply Forall_app. split.
      * revert Hfrom. apply Forall_impl. intros s.
        apply (estimate_of_more before rest before). intros v Hv.
        apply in_or_app. now left.
      * revert Hmore. apply Forall_impl. intros s.
        apply (estimate_of_more before rest rest). intros v Hv.
        apply in_or_app. now right.
  - destruct (spill_loop_throws rest acc st' e fin Erest) as (bad & Hin & Hbad & ->).
    unfold marine_failure. eexists _, _. split; [reflexivity |]. split.
    + cbn [console]. rewrite Hlines. subst st'. cbn [console].
      rewrite <- !app_assoc. apply in_or_app. right. now left.
    + right. exists bad. split; [exact Hin |]. split; [exact Hbad | reflexivity].
Qed.

End WithService.

(** A run: a detector answer whose only entry is distress without a
    vessel payload gets no spill estimate. *)
Lemma bare_distress_gets_no_estimate :
  let out := marine_analyze unit (marine_service bare_distress (inl spill_estimate))
               python_url (JObj []) (start tt) in
  List.length (filter (is_spill_call python_url) (calls (snd out)))
  <> List.length (filter is_distress (statuses_of bare_distress)).
Proof. vm_compute. discriminate. Qed.

(** A run: the estimate of the one distress vessel fails; the route
    answers 200 with the detector's data and an empty oil_spills, and
    nothing in the answer tells of the failure. *)
Lemma failed_estimate_not_in_answer :
  exists resp st',
    marine_analyze unit (marine_service one_distress (inr spill_failure))
      python_url (JObj []) (start tt) = (inl resp, st')
    /\ List.length (filter is_distress (statuses_of one_distress)) = 1%nat
    /\ status_code resp = 200%nat
    /\ body resp = JObj (spread one_distress ++ [("oil_spills", JArr [])])
    /\ mentions spill_failure (body resp) = false
    /\ mentions "error" (body resp) = false.
Proof. eexists _, _. vm_compute. repeat split; reflexivity. Qed.

(** A run with one distress vessel and one normal vessel. *)
Lemma spill_estimates_follow_guarded_distress_witness :
  exists resp st',
    marine_analyze unit (marine_service one_distress (inl spill_estimate))
      python_url (JObj []) (start tt) = (inl resp, st')
    /\ calls st'
       = detector_call python_url JUndef
         :: map (spill_call python_url)
              (filter wants_spill (reached (statuses_of one_distress))).
Proof.
  destruct (spill_estimates_follow_guarded_distress unit
              (marine_service one_distress (inl spill_estimate)) python_url
              (JObj []) JUndef one_distress tt tt)
    as (resp & st' & H1 & H2 & _); [reflexivity | reflexivity |].
  exists resp, st'. split; assumption.
Defined.

(** A run: the estimate of the first entry, a distress vessel, fails;
    a normal vessel follows. *)
Lemma failed_estimate_is_logged_and_skipped_witness :
  exists resp fin,
    marine_analyze unit (marine_service one_distress (inr spill_failure))
      python_url (JObj []) (start tt) = (inl resp, fin)
    /\ In (spill_error_line spill_failure) (console fin)
    /\ status_code resp = 200%nat.
Proof.
  destruct (proj2 (proj2
              (failed_estimate_is_logged_and_skipped unit
                 (marine_service one_distress (inr spill_failure)) python_url
                 []
                 [JObj [("imo", JStr "IMO9300002"); ("status", JStr "normal");
                        ("vessel", JObj [("imo", JStr "IMO9300002")])]]
                 (JObj [("imo", JStr "IMO9300001"); ("status", JStr "distress");
                        ("vessel", tanker)])
                 (detected python_url JUndef (start tt) tt) spill_failure tt
                 eq_refl eq_refl))
              (JObj []) JUndef one_distress tt tt [] eq_refl eq_refl eq_refl eq_refl)
    as (resp & fin & Hrun & Hconsole & [(more & _ & Hresp & _) | (bad & Hin & Hbad & _)]).
  - exists resp, fin. split; [exact Hrun |]. split; [exact Hconsole |].
    rewrite Hresp. reflexivity.
  - destruct Hin as [<- | []]. discriminate Hbad.
Defined.

End MarineFacts.

(** ** The history store keeps the last 500 entries *)

Module HistoryFacts.

Import Gateway UserHistory Examples HistorySample.

Lemma slice_last_length {A} (n : nat) (a : list A) :
  List.length (slice_last n a) = Nat.min n (List.length a).
Proof. unfold slice_last. rewrite length_skipn. lia. Qed.

Lemma slice_last_suffix {A} (n : nat) (a : list A) :
  firstn (List.length a - n) a ++ slice_last n a = a.
Proof. unfold slice_last. apply firstn_skipn. Qed.

(** One POST either leaves the store alone or appends one entry and cuts
    the front down to the cap. *)
Lemma post_history_cases (env : Env) (req_body : value) (h : list value) :
  snd (post_history env req_body h) = h
  \/ exists entry,
       snd (post_history env req_body h)
       = if (history_cap <? List.length (h ++ [entry]))%nat
         then slice_last history_cap (h ++ [entry]) else h ++ [entry].
Proof.
  unfold post_history.
  destruct (prop req_body "userId") as [userId |]; [| now left].
  destruct (prop req_body "product") as [product |]; [| now left].
  destruct (prop req_body "analysisType") as [analysisType |]; [| now left].
  destruct (prop req_body "data") as [data |]; [| now left].
  destruct (prop req_body "summary") as [summary |]; [| now left].
  destruct (negb (truthy userId) || negb (truthy product)); [now left |].
  right. eexists. cbn [snd]. reflexivity.
Qed.

Lemma post_history_bound (env : Env) (req_body : value) (h : list value) :
  (List.length h <= history_cap)%nat ->
  (List.length (snd (post_history env req_body h)) <= history_cap)%nat.
Proof.
  intros Hh. destruct (post_history_cases env req_body h) as [-> | [entry ->]]; [exact Hh |].
  destruct (Nat.ltb_spec history_cap (List.length (h ++ [entry]))).
  - rewrite slice_last_length. lia.
  - lia.
Qed.

(** A body that has one property has every property the route reads. *)
Lemma prop_of_body (o : value) (k k' : string) (v : value) :
  prop o k = Some v -> exists v', prop o k' = Some v'.
Proof. destruct o; cbn; intros H; try discriminate; eauto. Qed.

(** One POST whose body has a userId and a product: the answer and the
    store afterwards. *)
Lemma post_history_stores (env : Env) (req_body : value) (h : list value)
    (userId product : value) :
  prop req_body "userId" = Some userId -> truthy userId = true ->
  prop req_body "product" = Some product -> truthy product = true ->
  exists entry,
    post_history env req_body h
    = (res_json (JObj [("success", JBool true); ("entry", entry)]),
       skipn (List.length h + 1 - history_cap) (h ++ [entry]))
    /\ prop entry "userId" = Some userId
    /\ prop entry "product" = Some product.
Proof.
  intros Hu Tu Hp Tp. unfold post_history. rewrite Hu, Hp.
  destruct (prop_of_body req_body _ "analysisType" _ Hu) as [analysisType ->].
  destruct (prop_of_body req_body _ "data" _ Hu) as [data ->].
  destruct (prop_of_body req_body _ "summary" _ Hu) as [summary ->].
  rewrite Tu, Tp. cbn [negb orb].
  eexists. split.
  - apply f_equal2; [reflexivity |].
    rewrite length_app. cbn [List.length].
    destruct (Nat.ltb_spec history_cap (List.length h + 1)) as [Hlt | Hle].
    + unfold slice_last. now rewrite length_app.
    + replace (List.length h + 1 - history_cap)%nat with 0%nat by lia. reflexivity.
  - split; reflexivity.
Qed.

(** C10: whatever POSTs the gateway has served since it started, the
    store holds at most 500 entries; a POST whose body has a userId and
    a product is answered 200 with its new entry, and the store
    afterwards is the store before with that entry appended and, when
    that makes more than 500, cut from the front: below 500 nothing
    goes, and on a store of 500 exactly the oldest entry goes and the
    new one is kept last; a POST that is not answered 200 leaves the
    store as it was, and a body without userId or without product is
    answered 400. *)
Theorem history_capped_oldest_dropped :
  (forall reqs : list (Env * value),
      (List.length (serve reqs []) <= 500)%nat)
  /\ (forall env req_body h userId product,
         prop req_body "userId" = Some userId -> truthy userId = true ->
         prop req_body "product" = Some product -> truthy product = true ->
         exists entry,
           fst (post_history env req_body h)
           = res_json (JObj [("success", JBool true); ("entry", entry)])
           /\ prop entry "userId" = Some userId
           /\ prop entry "product" = Some product
           /\ snd (post_history env req_body h)
              = skipn (List.length h + 1 - 500) (h ++ [entry])
           /\ ((List.length h < 500)%nat ->
               snd (post_history env req_body h) = h ++ [entry])
           /\ (forall oldest others,
                  h = oldest :: others -> List.length h = 500%nat ->
                  snd (post_history env req_body h) = others ++ [entry]))
  /\ (forall env req_body h,
         status_code (fst (post_history env req_body h)) <> 200%nat ->
         snd (post_history env req_body h) = h)
  /\ (forall env props h,
         lookup "userId" props = None \/ lookup "product" props = None ->
         post_history env (JObj props) h
         = (res_status_json 400 (JObj [("error", JStr "userId and product are required")]),
            h)).
Proof.
  split; [| split; [| split]].
  - assert (H : forall reqs h, (List.length h <= history_cap)%nat ->
                               (List.length (serve reqs h) <= history_cap)%nat).
    { induction reqs as [| [env req_body] rest IH]; intros h Hh; cbn [serve].
      - exact Hh.
      - apply IH, post_history_bound, Hh. }
    intros reqs. apply (H reqs []). cbn. unfold history_cap. lia.
  - intros env req_body h userId product Hu Tu Hp Tp.
    destruct (post_history_stores env req_body h userId product Hu Tu Hp Tp)
      as (entry & -> & Heu & Hep).
    exists entry. cbn [fst snd]. unfold history_cap.
    split; [reflexivity |]. split; [exact Heu |]. split; [exact Hep |].
    split; [reflexivity |]. split.
    + intros Hlt. replace (List.length h + 1 - 500)%nat with 0%nat by lia. reflexivity.
    + intros oldest others -> Hfull.
      replace (List.length (oldest :: others) + 1 - 500)%nat with 1%nat by lia.
      reflexivity.
  - intros env req_body h. unfold post_history.
    destruct (prop req_body "userId") as [userId |]; [| reflexivity].
    destruct (prop req_body "product") as [product |]; [| reflexivity].
    destruct (prop req_body "analysisType") as [analysisType |]; [| reflexivity].
    destruct (prop req_body "data") as [data |]; [| reflexivity].
    destruct (prop req_body "summary") as [summary |]; [| reflexivity].
    destruct (negb (truthy userId) || negb (truthy product)); [reflexivity |].
    cbn. congruence.
  - intros env props h Hmissing. unfold post_history, prop.
    destruct Hmissing as [-> | ->]; cbn.
    + reflexivity.
    + destruct (lookup "userId" props) as [u |]; cbn; [| reflexivity].
      now rewrite orb_true_r.
Qed.

(** A full store: a valid POST drops its oldest entry and keeps the new
    one last. *)
Lemma history_capped_oldest_dropped_witness :
  List.length full_store = 500%nat
  /\ exists entry,
       fst (post_history history_env history_request full_store)
       = res_json (JObj [("success", JBool true); ("entry", entry)])
       /\ snd (post_history history_env history_request full_store)
          = tl full_store ++ [entry].
Proof.
  split; [vm_compute; reflexivity |].
  destruct (proj1 (proj2 history_capped_oldest_dropped)
              history_env history_request full_store (JStr "u1") (JStr "AEGIS")
              eq_refl eq_refl eq_refl eq_refl)
    as (entry & Hresp & _ & _ & _ & _ & Hfull).
  exists entry. split; [exact Hresp |].
  apply (Hfull (hd JNull full_store) (tl full_store)); vm_compute; reflexivity.
Defined.

End HistoryFacts.

(** ** The fragility engine: the dispatch plan *)

Module FragilityFacts.

Import Core Fragility.
Local Open Scope Q_scope.

Section WithEngine.

Variable preset : Scenario -> Features.
Variable synthesize_history : Features -> list Features.
Variable score_model : list Features -> Z -> Zone -> Q.
Variable zone_registry : list Zone.
Variable zone_graph : list (nat * nat * Q).
Variable lag_of_cost : Q -> Q.

Local Abbreviation analyze :=
  (analyze_fragility preset synthesize_history score_model zone_registry
     zone_graph lag_of_cost).
Local Abbreviation route := (route_to zone_graph lag_of_cost).
Local Abbreviation plan := (plan_dispatch zone_graph lag_of_cost).

Lemma analysis_zones scenario manual time_step a :
  analyze scenario manual time_step = inr a ->
  exists sc,
    zones a = map (score_zone synthesize_history score_model (normalize preset sc manual) time_step)
                  zone_registry
    /\ dispatch_plan a = plan (zones a).
Proof.
  unfold analyze_fragility.
  destruct (scenario_of_name scenario) as [sc |]; [| discriminate].
  intros H. inversion H. cbn. eauto.
Qed.

Lemma best_of_in (c : ScoredZone * Q) (rest : list (ScoredZone * Q)) :
  In (best_of c rest) (c :: rest).
Proof.
  revert c. induction rest as [| b rest IH]; intros c; cbn [best_of].
  - now left.
  - destruct (IH (if preferred c b then c else b)) as [H | H].
    + rewrite <- H. destruct (preferred c b); [now left | right; now left].
    + right. now right.
Qed.

Lemma candidates_in (dist : list (nat * Q)) (scored : list ScoredZone) z d :
  In (z, d) (candidates dist scored) ->
  In z scored /\ status z <> critical.
Proof.
  unfold candidates. intros H. apply in_flat_map in H.
  destruct H as (x & Hx & H).
  destruct (status x) eqn:Es; cbn in H;
    try (destruct (distance_of _ dist); cbn in H;
         [destruct H as [H | []]; inversion H; subst; split; [assumption | congruence]
         | contradiction]).
  contradiction.
Qed.

Lemma route_to_ends (scored : list ScoredZone) (dest : ScoredZone) (r : DispatchRoute) :
  route scored dest = Some r ->
  destination r = dest /\ In (origin r) scored /\ status (origin r) <> critical.
Proof.
  unfold route_to.
  destruct (candidates _ scored) as [| c rest] eqn:Ec; [discriminate |].
  pose proof (best_of_in c rest) as Hin. rewrite <- Ec in Hin.
  destruct (best_of c rest) as [o cost].
  intros H. inversion H; subst; cbn.
  split; [reflexivity |]. eapply candidates_in, Hin.
Qed.

Lemma plan_dispatch_ends (scored : list ScoredZone) (r : DispatchRoute) :
  In r (plan scored) ->
  In (destination r) scored /\ status (destination r) = critical
  /\ In (origin r) scored /\ status (origin r) <> critical.
Proof.
  unfold plan_dispatch. intros H. apply in_flat_map in H.
  destruct H as (z & Hz & H).
  destruct (status z) eqn:Es; cbn in H; try contradiction.
  destruct (route scored z) as [r' |] eqn:Er; cbn in H; [| contradiction].
  destruct H as [<- | []].
  apply route_to_ends in Er. destruct Er as (-> & Ho & Hs). auto.
Qed.

Lemma plan_dispatch_none (scored : list ScoredZone) :
  (forall z, In z scored -> status z <> critical) -> plan scored = [].
Proof.
  intros H. destruct (plan scored) as [| r rest] eqn:E; [reflexivity |].
  assert (Hr : In r (plan scored)) by (rewrite E; now left).
  apply plan_dispatch_ends in Hr. destruct Hr as (Hin & Hc & _).
  now apply H in Hin.
Qed.

(** C6: in the dispatch plan of every analysis, each route ends in a
    zone of the analysis whose status is critical and starts from one
    whose status is not critical; when no zone is critical the plan is
    empty. *)
Theorem dispatch_routes_into_critical_only :
  forall scenario manual time_step a,
    analyze_fragility preset synthesize_history score_model zone_registry
      zone_graph lag_of_cost scenario manual time_step = inr a ->
    Forall (fun r =>
              In (destination r) (zones a) /\ status (destination r) = critical
              /\ In (origin r) (zones a) /\ status (origin r) <> critical)
           (dispatch_plan a)
    /\ ((forall z, In z (zones a) -> status z <> critical) -> dispatch_plan a = []).
Proof.
  intros scenario manual time_step a Ha.
  destruct (analysis_zones _ _ _ _ Ha) as (sc & _ & ->).
  split.
  - apply Forall_forall. intros r. apply plan_dispatch_ends.
  - apply plan_dispatch_none.
Qed.

End WithEngine.

(** The sample engine under a flood: the south zone is critical and is
    served from the central zone. *)
Lemma dispatch_routes_into_critical_only_witness :
  exists a,
    sample_analysis "Flood Event" 0 = inr a
    /\ map (fun r => (zone_id (zone (origin r)), zone_id (zone (destination r))))
           (dispatch_plan a) = [(2%nat, 3%nat)]
    /\ Forall (fun r =>
                 In (destination r) (zones a) /\ status (destination r) = critical
                 /\ In (origin r) (zones a) /\ status (origin r) <> critical)
              (dispatch_plan a).
Proof.
  eexists. split; [reflexivity |]. split; [reflexivity |].
  apply (dispatch_routes_into_critical_only sample_preset sample_history sample_model
           sample_zones sample_graph sample_lag "Flood Event" None 0%Z).
  reflexivity.
Defined.

End FragilityFacts.

(** ** The plume simulator: steps and growth *)

Module PlumeFacts.

Import Gateway Core Plume.
Local Open Scope R_scope.

Lemma final_app (u x : Point) (us : list Point) : final u (us ++ [x]) = x.
Proof. revert u. induction us as [| v rest IH]; intros u; cbn; auto. Qed.

(** Scaling a path by [r] and moving it to [c] scales the shoelace sum
    by [r * r], up to terms that only see the two ends of the path. *)
Lemma shoelace_place (c : Point) (r : R) (us : list Point) :
  forall u,
    shoelace (place c r (u :: us))
    = r * r * shoelace (u :: us)
      + r * fst c * (snd (final u us) - snd u)
      + r * snd c * (fst u - fst (final u us)).
Proof.
  induction us as [| v rest IH]; intros u.
  - cbn. ring.
  - specialize (IH v). cbn [place map] in IH |- *.
    cbn [shoelace final]. cbn [shoelace] in IH. rewrite IH. cbn [fst snd]. ring.
Qed.

(** A ring is closed, so the end terms cancel. *)
Lemma shoelace_ring (c : Point) (r : R) (n : nat) :
  shoelace (place c r (unit_ring n)) = r * r * shoelace (unit_ring n).
Proof.
  unfold unit_ring. destruct n as [| n].
  - cbn. ring.
  - cbn [seq map app]. rewrite shoelace_place, final_app. ring.
Qed.

Lemma ring_area (c : Point) (r : R) (n : nat) :
  polygon_area (place c r (unit_ring n)) = r * r * polygon_area (unit_ring n).
Proof.
  unfold polygon_area. rewrite shoelace_ring, Rabs_mult.
  rewrite (Rabs_right (r * r)); [field |].
  apply Rle_ge. fold (Rsqr r). apply Rle_0_sqr.
Qed.

Section WithSimulator.

Variable diffusion : SourceType -> R.
Variable ring_points : nat.
Variable population_density : R.
Variable default_flow_speed : R.
Variable project : R -> R -> Point.

Local Abbreviation step := (step_at diffusion ring_points population_density).
Local Abbreviation simulate :=
  (simulate_propagation diffusion ring_points population_density
     default_flow_speed project).

(** The area of a step is linear in the hour. *)
Lemma step_area (src : Point) (st : SourceType) (direction speed : R) (h : nat) :
  affected_area (step src st direction speed h)
  = diffusion st * diffusion st * polygon_area (unit_ring ring_points) * INR h.
Proof.
  unfold step_at. cbn [affected_area]. rewrite ring_area. unfold radius_at.
  replace (diffusion st * sqrt (INR h) * (diffusion st * sqrt (INR h)))
    with (diffusion st * diffusion st * (sqrt (INR h) * sqrt (INR h))) by ring.
  rewrite sqrt_sqrt by apply pos_INR. ring.
Qed.

Lemma step_area_grows (src : Point) (st : SourceType) (direction speed : R) (h : nat) :
  affected_area (step src st direction speed h)
  <= affected_area (step src st direction speed (S h)).
Proof.
  rewrite !step_area. apply Rmult_le_compat_l.
  - apply Rmult_le_pos.
    + fold (Rsqr (diffusion st)). apply Rle_0_sqr.
    + unfold polygon_area. apply Rmult_le_pos; [apply Rabs_pos | lra].
  - apply le_INR. lia.
Qed.

Lemma steps_non_decreasing (src : Point) (st : SourceType) (direction speed : R)
    (n : nat) :
  non_decreasing (map affected_area (map (step src st direction speed) (seq 0 n))).
Proof.
  intros i a b Ha Hb. rewrite map_map in Ha, Hb.
  rewrite nth_error_map, nth_error_seq in Ha, Hb.
  destruct (i <? n)%nat; [| discriminate].
  destruct (S i <? n)%nat; [| discriminate].
  cbn in Ha, Hb. inversion Ha. inversion Hb. apply step_area_grows.
Qed.

Lemma steps_hours (src : Point) (st : SourceType) (direction speed : R) (n : nat) :
  map hour (map (step src st direction speed) (seq 0 n)) = seq 0 n.
Proof. rewrite map_map. cbn [step_at hour]. apply map_id. Qed.

(** A run that is accepted has one step per hour from 0 to the
    duration, and its areas never go down. *)
Lemma accepted_run (req : Request) (steps : list TimeStep) :
  simulate req = inr steps ->
  map hour steps = seq 0 (S (Z.to_nat (simulation_hours req)))
  /\ non_decreasing (map affected_area steps).
Proof.
  unfold simulate_propagation.
  destruct (source_lat req) as [lat |]; [| discriminate].
  destruct (source_lon req) as [lon |]; [| discriminate].
  destruct (source_type_of_name (source_type req)) as [st |]; [| discriminate].
  destruct ((simulation_hours req <? 1)%Z || (24 <? simulation_hours req)%Z);
    [discriminate |].
  intros H. injection H as <-.
  split;
    [ exact (steps_hours _ _ _ _ (S (Z.to_nat (simulation_hours req))))
    | exact (steps_non_decreasing _ _ _ _ (S (Z.to_nat (simulation_hours req)))) ].
Qed.

(** Durations outside 1..24 are rejected by the simulator itself. *)
Lemma out_of_range_rejected (req : Request) :
  (simulation_hours req < 1 \/ 24 < simulation_hours req)%Z ->
  exists f, simulate req = inl f /\ kind f = ValidationError.
Proof.
  intros Hrange. unfold simulate_propagation, invalid.
  destruct (source_lat req); [| eexists; split; reflexivity].
  destruct (source_lon req); [| eexists; split; reflexivity].
  destruct (source_type_of_name (source_type req)); [| eexists; split; reflexivity].
  destruct (Z.ltb_spec (simulation_hours req) 1), (Z.ltb_spec 24 (simulation_hours req));
    cbn [orb]; try (eexists; split; reflexivity); lia.
Qed.

End WithSimulator.

(** C7: the request "Oil Spill", 180, 2.0, 12 reaches the simulator as it
    was sent; the simulator answers it with 13 steps, for the hours 0 to
    12; and in every accepted run the steps are the hours 0 to the
    duration and the affected area never goes down from one step to the
    next. *)
Theorem plume_steps_and_growth :
  (forall (World : Type) (service : string -> value -> World -> (value + string) * World)
          (lat lon : value) (st : State World),
      calls (snd (cascade_simulate World service Examples.python_url
                    (Examples.simulate_request lat lon (JNum 180) (JNum 12)) st))
      = calls st ++ [Examples.simulate_call lat lon (JNum 180) (JNum 12)])
  /\ (forall diffusion ring_points population_density default_flow_speed project lat lon,
         exists steps,
           simulate_propagation diffusion ring_points population_density
             default_flow_speed project
             {| source_lat := Some lat; source_lon := Some lon;
                source_type := "Oil Spill"; flow_direction := 180;
                flow_speed := Some 2; simulation_hours := 12 |}
           = inr steps
           /\ List.length steps = 13%nat
           /\ map hour steps = seq 0 13)
  /\ (forall diffusion ring_points population_density default_flow_speed project
             req steps,
         simulate_propagation diffusion ring_points population_density
           default_flow_speed project req = inr steps ->
         map hour steps = seq 0 (S (Z.to_nat (simulation_hours req)))
         /\ non_decreasing (map affected_area steps)).
Proof.
  split; [| split].
  - intros World service lat lon st.
    apply (CascadeFacts.simulate_request_wire World service lat lon (JNum 180) (JNum 12) st).
  - intros. eexists. split; [reflexivity |].
    split; [now rewrite length_map, length_seq | apply steps_hours].
  - intros diffusion ring_points population_density default_flow_speed project req steps.
    apply accepted_run.
Qed.

(** The specification's example on the sample configuration. *)
Lemma plume_steps_and_growth_witness :
  exists steps,
    sample_run oil_spill_12h = inr steps
    /\ map hour steps = seq 0 13
    /\ non_decreasing (map affected_area steps).
Proof.
  eexists. split; [reflexivity |].
  apply (proj2 (proj2 plume_steps_and_growth) sample_diffusion 16%nat 1000 2
           sample_project oil_spill_12h).
  reflexivity.
Defined.

End PlumeFacts.

(** ** Reading the history back *)

Module HistoryQueryFacts.

Import Gateway UserHistory HistoryQuery Examples HistorySample.

Lemma filter_by_user_filter (userId : value) (l mine : list value) :
  filter_by_user userId l = Some mine -> mine = filter (owned_by userId) l.
Proof.
  revert mine. induction l as [| h rest IH]; intros mine; cbn.
  - intros H. now inversion H.
  - unfold owned_by at 1.
    destruct (prop h "userId") as [u |]; [| discriminate].
    destruct (filter_by_user userId rest) as [r |]; [| discriminate].
    intros H. inversion H. rewrite (IH r eq_refl). reflexivity.
Qed.

Lemma filter_by_user_total (userId : value) (l : list value) :
  Forall (fun h => prop h "userId" <> None) l ->
  filter_by_user userId l = Some (filter (owned_by userId) l).
Proof.
  induction 1 as [| h rest Hh _ IH]; cbn; [reflexivity |].
  unfold owned_by at 1.
  destruct (prop h "userId") as [u |]; [| congruence].
  now rewrite IH.
Qed.

Lemma insert_sorted_perm (x : value) (l : list value) :
  Permutation (insert_sorted x l) (x :: l).
Proof.
  induction l as [| y ys IH]; cbn; [reflexivity |].
  destruct (stays_before x y); [reflexivity |].
  rewrite IH. apply perm_swap.
Qed.

Lemma sort_newest_first_perm (l : list value) : Permutation (sort_newest_first l) l.
Proof.
  induction l as [| x rest IH]; cbn; [reflexivity |].
  rewrite insert_sorted_perm. now constructor.
Qed.

Lemma in_firstn {A} (n : nat) (l : list A) (x : A) : In x (firstn n l) -> In x l.
Proof. intros H. rewrite <- (firstn_skipn n l). apply in_or_app. now left. Qed.

Lemma in_skipn {A} (n : nat) (l : list A) (x : A) : In x (skipn n l) -> In x l.
Proof. intros H. rewrite <- (firstn_skipn n l). apply in_or_app. now right. Qed.

(** What a 200 answer of the GET holds. *)
Lemma get_history_items (query userId : value) (store : list value) :
  prop query "userId" = Some userId ->
  history_of (get_history query store) = []
  \/ (truthy userId = true
      /\ exists mine,
           filter_by_user userId store = Some mine
           /\ get_history query store
              = res_json (JObj [("history", JArr (firstn page_size (sort_newest_first mine)))])
           /\ history_of (get_history query store)
              = firstn page_size (sort_newest_first mine)).
Proof.
  intros Hq. unfold get_history. rewrite Hq.
  destruct (truthy userId); cbn [negb]; [| now left].
  destruct (filter_by_user userId store) as [mine |]; [| now left].
  right. split; [reflexivity |]. exists mine. repeat split; reflexivity.
Qed.

(** X1: the GET answers a query without a user id with 400 and no
    history; otherwise its history holds at most 50 entries, each one an
    entry of the store whose userId is the one asked for. *)
Theorem history_answer_owned_and_bounded :
  forall (query userId : value) (store : list value),
    prop query "userId" = Some userId ->
    (truthy userId = false ->
     get_history query store
     = res_status_json 400 (JObj [("error", JStr "userId query param required")]))
    /\ (List.length (history_of (get_history query store)) <= 50)%nat
    /\ Forall (fun h => In h store /\ owned_by userId h = true)
              (history_of (get_history query store)).
Proof.
  intros query userId store Hq. split; [| split].
  - intros Hf. unfold get_history. now rewrite Hq, Hf.
  - destruct (get_history_items query userId store Hq) as [-> | (_ & mine & _ & _ & ->)].
    + cbn. lia.
    + rewrite length_firstn. unfold page_size. lia.
  - destruct (get_history_items query userId store Hq) as [-> | (_ & mine & Hm & _ & ->)].
    + constructor.
    + apply Forall_forall. intros h Hin.
      assert (Hin' : In h mine).
      { eapply Permutation_in; [apply sort_newest_first_perm |].
        eapply in_firstn; exact Hin. }
      rewrite (filter_by_user_filter _ _ _ Hm) in Hin'.
      now apply filter_In in Hin'.
Qed.

Lemma or_else_truthy (a d : value) : truthy d = true -> truthy (or_else a d) = true.
Proof. intros Hd. unfold or_else. destruct (truthy a) eqn:E; assumption. Qed.

(** One POST, in full: it leaves the store alone and does not answer
    200, or it answers 200 with a well-formed entry of the body's user
    and appends that entry, cutting the front down to the cap. *)
Lemma post_history_outcome (env : Env) (req_body : value) (h : list value) :
  (snd (post_history env req_body h) = h
   /\ status_code (fst (post_history env req_body h)) <> 200%nat)
  \/ exists entry u,
       prop req_body "userId" = Some u /\ truthy u = true
       /\ stored_entry entry /\ prop entry "userId" = Some u
       /\ fst (post_history env req_body h)
          = res_json (JObj [("success", JBool true); ("entry", entry)])
       /\ snd (post_history env req_body h)
          = if (history_cap <? List.length (h ++ [entry]))%nat
            then slice_last history_cap (h ++ [entry]) else h ++ [entry].
Proof.
  unfold post_history.
  destruct (prop req_body "userId") as [userId |]; [| left; split; [reflexivity | cbn; lia]].
  destruct (prop req_body "product") as [product |]; [| left; split; [reflexivity | cbn; lia]].
  destruct (prop req_body "analysisType") as [analysisType |];
    [| left; split; [reflexivity | cbn; lia]].
  destruct (prop req_body "data") as [data |]; [| left; split; [reflexivity | cbn; lia]].
  destruct (prop req_body "summary") as [summary |]; [| left; split; [reflexivity | cbn; lia]].
  destruct (truthy userId) eqn:Hu; cbn [negb orb]; [| left; split; [reflexivity | cbn; lia]].
  destruct (truthy product) eqn:Hp; cbn [negb orb]; [| left; split; [reflexivity | cbn; lia]].
  right. eexists _, userId. split; [reflexivity |]. split; [exact Hu |].
  refine (conj _ (conj _ (conj eq_refl eq_refl))); [| reflexivity].
  unfold stored_entry, timestamp_of. cbn.
  eexists _, userId, product, _, _. repeat split; try reflexivity; try assumption.
  now apply or_else_truthy.
Qed.

Lemma slice_last_keeps_new {A} (n : nat) (h : list A) (e : A) :
  (1 <= n)%nat -> In e (slice_last n (h ++ [e])).
Proof.
  intros Hn. unfold slice_last. rewrite skipn_app, length_app. cbn [List.length].
  apply in_or_app. right.
  replace (List.length h + 1 - n - List.length h)%nat with 0%nat by lia.
  now left.
Qed.

Lemma stored_after_post (env : Env) (req_body : value) (h : list value) :
  Forall stored_entry h -> Forall stored_entry (snd (post_history env req_body h)).
Proof.
  intros Hh.
  destruct (post_history_outcome env req_body h)
    as [[-> _] | (entry & u & _ & _ & He & _ & _ & ->)]; [exact Hh |].
  assert (Hall : Forall stored_entry (h ++ [entry])).
  { apply Forall_app. split; [exact Hh | now constructor]. }
  destruct (history_cap <? List.length (h ++ [entry]))%nat; [| exact Hall].
  apply Forall_forall. intros x Hx. unfold slice_last in Hx.
  apply in_skipn in Hx. revert x Hx. now apply Forall_forall.
Qed.

Lemma stored_entries_well_formed_helper (reqs : list (Env * value)) :
  Forall stored_entry (serve reqs []).
Proof.
  assert (H : forall rs h, Forall stored_entry h -> Forall stored_entry (serve rs h)).
  { intros rs. induction rs as [| [env req_body] rest IH]; intros h Hh; cbn [serve].
    - exact Hh.
    - apply IH, stored_after_post, Hh. }
  apply H. constructor.
Qed.

(** X3: whatever POSTs the gateway has served, every entry of the store
    is an object with a string id, a truthy userId, product and
    analysisType, and a number as timestamp: nothing else is ever
    stored. *)
Theorem stored_entries_well_formed :
  forall reqs : list (Env * value), Forall stored_entry (serve reqs []).
Proof.
  assert (H : forall rs h, Forall stored_entry h -> Forall stored_entry (serve rs h)).
  { intros rs. induction rs as [| [env req_body] rest IH]; intros h Hh; cbn [serve].
    - exact Hh.
    - apply IH, stored_after_post, Hh. }
  intros reqs. apply H. constructor.
Qed.

Lemma stored_entry_userId (e : value) : stored_entry e -> prop e "userId" <> None.
Proof. intros (id & u & p & a & ts & _ & Hu & _). congruence. Qed.

Lemma stored_entry_timestamp (e : value) :
  stored_entry e -> exists ts, timestamp_of e = Some ts.
Proof. intros (id & u & p & a & ts & H). exists ts. apply H. Qed.

Lemma stays_before_newer (x y : value) (tx ty : Q) :
  timestamp_of x = Some tx -> timestamp_of y = Some ty ->
  if stays_before x y then newer_or_equal x y else newer_or_equal y x.
Proof.
  intros Hx Hy. unfold stays_before. rewrite Hx, Hy.
  destruct (Qle_bool (ty - tx) 0) eqn:E.
  - apply Qle_bool_iff in E. exists tx, ty. repeat split; auto. Lqa.lra.
  - exists ty, tx. repeat split; auto.
    destruct (Qlt_le_dec 0 (ty - tx)) as [Hlt | Hle]; [Lqa.lra |].
    apply Qle_bool_iff in Hle. congruence.
Qed.

Lemma newer_or_equal_trans (a b c : value) :
  newer_or_equal a b -> newer_or_equal b c -> newer_or_equal a c.
Proof.
  intros (ta & tb & Ha & Hb & Hab) (tb' & tc & Hb' & Hc & Hbc).
  rewrite Hb in Hb'. inversion Hb'; subst. exists ta, tc. repeat split; auto. Lqa.lra.
Qed.

Lemma insert_sorted_sorted (x : value) (l : list value) :
  (exists tx, timestamp_of x = Some tx) ->
  Forall (fun h => exists t, timestamp_of h = Some t) l ->
  StronglySorted newer_or_equal l ->
  StronglySorted newer_or_equal (insert_sorted x l).
Proof.
  intros [tx Hx] Hts Hsorted. induction l as [| y ys IH]; cbn.
  - repeat constructor.
  - inversion Hts as [| ? ? [ty Hy] Hts']; subst.
    inversion Hsorted as [| ? ? Hys Hy_first]; subst.
    pose proof (stays_before_newer x y tx ty Hx Hy) as Hcmp.
    destruct (stays_before x y).
    + constructor; [exact Hsorted |]. constructor; [exact Hcmp |].
      eapply Forall_impl; [| exact Hy_first].
      intros z Hz. eapply newer_or_equal_trans; eauto.
    + constructor; [now apply IH |].
      eapply Permutation_Forall; [symmetry; apply insert_sorted_perm |].
      constructor; assumption.
Qed.

Lemma sort_newest_first_sorted (l : list value) :
  Forall (fun h => exists t, timestamp_of h = Some t) l ->
  StronglySorted newer_or_equal (sort_newest_first l).
Proof.
  induction 1 as [| x rest Hx Hrest IH]; cbn; [constructor |].
  apply insert_sorted_sorted; [exact Hx | | exact IH].
  eapply Permutation_Forall; [symmetry; apply sort_newest_first_perm | exact Hrest].
Qed.

(** X2: after any POSTs, the history the GET gives a user is the front
    of that user's entries arranged newest first: together with the
    entries left out it is a rearrangement of all the user's entries in
    which no entry is older than one that follows it, and entries are
    left out only when 50 are given. *)
Theorem history_answer_newest_first :
  forall (reqs : list (Env * value)) (query userId : value),
    prop query "userId" = Some userId ->
    truthy userId = true ->
    exists older,
      status_code (get_history query (serve reqs [])) = 200%nat
      /\ Permutation (history_of (get_history query (serve reqs [])) ++ older)
                     (filter (owned_by userId) (serve reqs []))
      /\ StronglySorted newer_or_equal
           (history_of (get_history query (serve reqs [])) ++ older)
      /\ (older = []
          \/ List.length (history_of (get_history query (serve reqs []))) = 50%nat).
Proof.
  intros reqs query userId Hq Ht.
  pose proof (stored_entries_well_formed_helper reqs) as Hstore.
  set (store := serve reqs []) in *.
  assert (Hmine : filter_by_user userId store = Some (filter (owned_by userId) store)).
  { apply filter_by_user_total. eapply Forall_impl; [| exact Hstore].
    apply stored_entry_userId. }
  set (mine := filter (owned_by userId) store) in *.
  assert (Hans : get_history query store
                 = res_json (JObj [("history",
                                    JArr (firstn page_size (sort_newest_first mine)))])).
  { unfold get_history. now rewrite Hq, Ht, Hmine. }
  rewrite Hans.
  change (history_of (res_json (JObj [("history", JArr (firstn page_size (sort_newest_first mine)))])))
    with (firstn page_size (sort_newest_first mine)).
  exists (skipn page_size (sort_newest_first mine)).
  rewrite firstn_skipn. split; [reflexivity |].
  split; [apply sort_newest_first_perm |]. split.
  - apply sort_newest_first_sorted. apply Forall_forall. intros h Hh.
    apply filter_In in Hh. destruct Hh as [Hh _].
    apply stored_entry_timestamp. revert h Hh. now apply Forall_forall.
  - destruct (Nat.le_gt_cases (List.length (sort_newest_first mine)) page_size) as [Hle | Hgt].
    + left. now apply skipn_all2.
    + right. rewrite length_firstn. unfold page_size in *. lia.
Qed.

Lemma strict_equal_truthy (u v : value) :
  strict_equal u v = true -> truthy u = truthy v.
Proof.
  destruct u, v; cbn; try discriminate; try reflexivity.
  - intros H. now apply Bool.eqb_prop in H.
  - intros H. apply Qeq_bool_iff in H. unfold Qeq in H. f_equal.
    destruct (Z.eqb_spec (Qnum q) 0) as [E | E], (Z.eqb_spec (Qnum q0) 0) as [E0 | E0];
      try reflexivity; exfalso.
    + rewrite E in H. cbn in H. symmetry in H. apply Z.mul_eq_0 in H.
      destruct H as [H | H]; [contradiction | discriminate].
    + rewrite E0 in H. cbn in H. apply Z.mul_eq_0 in H.
      destruct H as [H | H]; [contradiction | discriminate].
  - intros H. apply String.eqb_eq in H. now subst.
Qed.

Lemma filter_skipn_length {A} (f : A -> bool) (n : nat) (l : list A) :
  (List.length (filter f (skipn n l)) <= List.length (filter f l))%nat.
Proof.
  rewrite <- (firstn_skipn n l) at 2. rewrite filter_app, length_app. lia.
Qed.

(** X4: after any POSTs, when a POST is answered 200 and its user had
    fewer than 50 entries in the store, a GET for that user's id gives
    the entry the POST answered with. *)
Theorem posted_entry_is_read_back :
  forall (reqs : list (Env * value)) (env : Env) (req_body query u v : value),
    prop req_body "userId" = Some u ->
    prop query "userId" = Some v ->
    strict_equal u v = true ->
    status_code (fst (post_history env req_body (serve reqs []))) = 200%nat ->
    (List.length (filter (owned_by v) (serve reqs [])) < 50)%nat ->
    exists entry,
      prop (body (fst (post_history env req_body (serve reqs [])))) "entry" = Some entry
      /\ In entry (history_of
                     (get_history query
                        (snd (post_history env req_body (serve reqs []))))).
Proof.
  intros reqs env req_body query u v Hu Hq Heq Hok Hfew.
  pose proof (stored_entries_well_formed_helper reqs) as Hstore.
  pose proof (stored_after_post env req_body _ Hstore) as Hstore'.
  set (store := serve reqs []) in *.
  destruct (post_history_outcome env req_body store)
    as [[_ Hno] | (entry & u' & Hu' & Htu & Hentry & Heu & Hresp & Hnew)];
    [contradiction |].
  rewrite Hu in Hu'. inversion Hu'; subst u'. clear Hu'.
  exists entry. split; [now rewrite Hresp |].
  set (store' := snd (post_history env req_body store)) in *.
  assert (Hin : In entry store').
  { rewrite Hnew. destruct (history_cap <? List.length (store ++ [entry]))%nat.
    - apply slice_last_keeps_new. unfold history_cap. lia.
    - apply in_or_app. right. now left. }
  assert (Hlen : (List.length (filter (owned_by v) store') <= 50)%nat).
  { assert (Hfull : (List.length (filter (owned_by v) (store ++ [entry])) <= 50)%nat).
    { rewrite filter_app, length_app. cbn [filter].
      destruct (owned_by v entry); cbn [List.length]; lia. }
    rewrite Hnew. destruct (history_cap <? List.length (store ++ [entry]))%nat;
      [| exact Hfull].
    unfold slice_last. etransitivity; [apply filter_skipn_length | exact Hfull]. }
  assert (Htv : truthy v = true).
  { rewrite <- (strict_equal_truthy u v Heq). exact Htu. }
  assert (Hmine : filter_by_user v store' = Some (filter (owned_by v) store')).
  { apply filter_by_user_total. eapply Forall_impl; [| exact Hstore'].
    apply stored_entry_userId. }
  unfold get_history. rewrite Hq, Htv, Hmine. cbn [negb].
  change (history_of (res_json (JObj [("history", JArr ?l)]))) with l.
  rewrite firstn_all2.
  - eapply Permutation_in; [symmetry; apply sort_newest_first_perm |].
    apply filter_In. split; [exact Hin |].
    unfold owned_by. now rewrite Heu.
  - rewrite (Permutation_length (sort_newest_first_perm _)). unfold page_size. exact Hlen.
Qed.

Lemma filter_by_user_other (v e : value) (h : list value) :
  owned_by v e = false -> prop e "userId" <> None ->
  filter_by_user v (h ++ [e]) = filter_by_user v h.
Proof.
  intros Hother Hobj. induction h as [| x rest IH]; cbn.
  - unfold owned_by in Hother. destruct (prop e "userId") as [u |]; [| congruence].
    now rewrite Hother.
  - now rewrite IH.
Qed.

(** X5: while the store holds fewer than 500 entries, a POST for one
    user changes nothing in what a GET answers for another user id. *)
Theorem other_users_unaffected_below_cap :
  forall (env : Env) (req_body query v : value) (store : list value),
    (List.length store < 500)%nat ->
    prop query "userId" = Some v ->
    (forall u, prop req_body "userId" = Some u -> strict_equal u v = false) ->
    get_history query (snd (post_history env req_body store)) = get_history query store.
Proof.
  intros env req_body query v store Hroom Hq Hother.
  destruct (post_history_outcome env req_body store)
    as [[-> _] | (entry & u & Hu & _ & Hentry & Heu & _ & ->)]; [reflexivity |].
  destruct (Nat.ltb_spec history_cap (List.length (store ++ [entry]))) as [Hlt | _].
  { rewrite length_app in Hlt. cbn in Hlt. unfold history_cap in Hlt. lia. }
  unfold get_history. rewrite Hq.
  destruct (truthy v); cbn [negb]; [| reflexivity].
  rewrite filter_by_user_other; [reflexivity | | now apply stored_entry_userId].
  unfold owned_by. rewrite Heu. now apply Hother.
Qed.

(** Three saved analyses of two users. *)
Lemma history_answer_owned_and_bounded_witness :
  Forall (fun h => In h (serve history_sample []) /\ owned_by (JStr "u1") h = true)
         (history_of (get_history (JObj [("userId", JStr "u1")]) (serve history_sample []))).
Proof.
  apply (history_answer_owned_and_bounded (JObj [("userId", JStr "u1")]) (JStr "u1")
           (serve history_sample [])).
  reflexivity.
Defined.

Lemma history_answer_newest_first_witness :
  exists older,
    status_code (get_history (JObj [("userId", JStr "u1")]) (serve history_sample []))
    = 200%nat
    /\ Permutation
         (history_of (get_history (JObj [("userId", JStr "u1")]) (serve history_sample []))
          ++ older)
         (filter (owned_by (JStr "u1")) (serve history_sample []))
    /\ StronglySorted newer_or_equal
         (history_of (get_history (JObj [("userId", JStr "u1")]) (serve history_sample []))
          ++ older)
    /\ (older = []
        \/ List.length
             (history_of (get_history (JObj [("userId", JStr "u1")])
                            (serve history_sample []))) = 50%nat).
Proof.
  apply (history_answer_newest_first history_sample (JObj [("userId", JStr "u1")])
           (JStr "u1")); reflexivity.
Defined.

Lemma posted_entry_is_read_back_witness :
  exists entry,
    prop (body (fst (post_history history_env history_request (serve history_sample []))))
         "entry" = Some entry
    /\ In entry
         (history_of
            (get_history (JObj [("userId", JStr "u1")])
               (snd (post_history history_env history_request (serve history_sample []))))).
Proof.
  apply (posted_entry_is_read_back history_sample history_env history_request
           (JObj [("userId", JStr "u1")]) (JStr "u1") (JStr "u1"));
    try reflexivity.
  vm_compute. lia.
Defined.

Lemma other_users_unaffected_below_cap_witness :
  get_history (JObj [("userId", JStr "u2")])
    (snd (post_history history_env history_request (serve history_sample [])))
  = get_history (JObj [("userId", JStr "u2")]) (serve history_sample []).
Proof.
  apply (other_users_unaffected_below_cap history_env history_request
           (JObj [("userId", JStr "u2")]) (JStr "u2") (serve history_sample [])).
  - vm_compute. lia.
  - reflexivity.
  - intros u Hu. vm_compute in Hu. inversion Hu. reflexivity.
Defined.

End HistoryQueryFacts.

(** ** Objects: writing a property and reading it back *)

Module ObjectFacts.

Lemma lookup_set_prop_same (k : string) (v : value) (props : list (string * value)) :
  lookup k (set_prop k v props) = Some v.
Proof.
  induction props as [| [k' v'] rest IH]; cbn.
  - now rewrite String.eqb_refl.
  - destruct (k =? k')%string eqn:E; cbn; rewrite ?String.eqb_refl, ?E; auto.
Qed.

Lemma lookup_set_prop_other (k k' : string) (v : value) (props : list (string * value)) :
  k' <> k -> lookup k' (set_prop k v props) = lookup k' props.
Proof.
  intros Hne. apply String.eqb_neq in Hne.
  induction props as [| [k0 v0] rest IH]; cbn.
  - now rewrite Hne.
  - destruct (k =? k0)%string eqn:E; cbn.
    + apply String.eqb_eq in E. subst k0. now rewrite Hne.
    + destruct (k' =? k0)%string; auto.
Qed.

Lemma lookup_not_in (k : string) (props : list (string * value)) :
  ~ In k (map fst props) -> lookup k props = None.
Proof.
  induction props as [| [k0 v0] rest IH]; cbn; [reflexivity |].
  intros Hn. destruct (String.eqb_spec k k0) as [-> | _].
  - exfalso. apply Hn. now left.
  - apply IH. intros H. apply Hn. now right.
Qed.

(** Spreading [source] over [target]: a key of [source] reads as in
    [source], any other key as in [target]. *)
Lemma lookup_assign (k : string) (source : list (string * value)) :
  NoDup (map fst source) ->
  forall target,
    lookup k (FirestoreHistory.assign target source)
    = match lookup k source with
      | Some v => Some v
      | None => lookup k target
      end.
Proof.
  unfold FirestoreHistory.assign.
  induction source as [| [k0 v0] rest IH]; intros Hnd target; cbn; [reflexivity |].
  inversion Hnd as [| ? ? Hnotin Hrest]; subst.
  rewrite (IH Hrest). cbn [fst snd].
  destruct (String.eqb_spec k k0) as [-> | Hne].
  - rewrite (lookup_not_in k0 rest Hnotin). apply lookup_set_prop_same.
  - destruct (lookup k rest); [reflexivity |]. now apply lookup_set_prop_other.
Qed.

Lemma append_empty (s : string) : (s ++ "")%string = s.
Proof. induction s as [| c rest IH]; cbn; [reflexivity | now rewrite IH]. Qed.

End ObjectFacts.

(** ** The history routes with Firestore *)

Module FirestoreFacts.

Import Gateway UserHistory FirestoreHistory ObjectFacts.

(** X6: without Firestore the second version of the POST route answers
    and stores exactly what the in-memory version does when its id has
    no random tail; Firestore's state is left alone. *)
Theorem fallback_agrees_with_memory_version :
  forall (World : Type) (env : Env) (req_body : value) (w : World) (h : list value),
    FirestoreHistory.post_history World None env req_body w h
    = (fst (UserHistory.post_history
              {| now_for_id := now_for_id env; random_tail := "";
                 now_for_timestamp := now_for_timestamp env;
                 iso_date := iso_date env |} req_body h),
       w,
       snd (UserHistory.post_history
              {| now_for_id := now_for_id env; random_tail := "";
                 now_for_timestamp := now_for_timestamp env;
                 iso_date := iso_date env |} req_body h)).
Proof.
  intros World env req_body w h.
  unfold FirestoreHistory.post_history, UserHistory.post_history.
  destruct (prop req_body "userId") as [userId |]; [| reflexivity].
  destruct (prop req_body "product") as [product |]; [| reflexivity].
  destruct (prop req_body "analysisType") as [analysisType |]; [| reflexivity].
  destruct (prop req_body "data") as [data |]; [| reflexivity].
  destruct (prop req_body "summary") as [summary |]; [| reflexivity].
  destruct (negb (truthy userId) || negb (truthy product)); [reflexivity |].
  cbn [now_for_id random_tail now_for_timestamp iso_date].
  rewrite append_empty. reflexivity.
Qed.

(** X7: with Firestore configured the in-memory store is neither
    written by a POST nor read by a GET, and a POST answered 400 leaves
    Firestore as it was. *)
Theorem firestore_bypasses_memory :
  forall (World : Type) (fs : Firestore World) (env : Env) (req_body query : value)
         (w : World) (h h' : list value),
    snd (FirestoreHistory.post_history World (Some fs) env req_body w h) = h
    /\ FirestoreHistory.get_history World (Some fs) query w h
       = FirestoreHistory.get_history World (Some fs) query w h'
    /\ (status_code (fst (fst (FirestoreHistory.post_history World (Some fs) env req_body w h)))
        = 400%nat ->
        snd (fst (FirestoreHistory.post_history World (Some fs) env req_body w h)) = w).
Proof.
  intros World fs env req_body query w h h'. split; [| split].
  - unfold FirestoreHistory.post_history.
    destruct (prop req_body "userId"), (prop req_body "product"),
      (prop req_body "analysisType"), (prop req_body "data"), (prop req_body "summary");
      try reflexivity.
    destruct (negb (truthy v) || negb (truthy v0)); [reflexivity |].
    destruct (add fs _ w) as [[id | msg] w']; reflexivity.
  - unfold FirestoreHistory.get_history.
    destruct (prop query "userId") as [userId |]; [| reflexivity].
    destruct (negb (truthy userId)); reflexivity.
  - unfold FirestoreHistory.post_history.
    destruct (prop req_body "userId"), (prop req_body "product"),
      (prop req_body "analysisType"), (prop req_body "data"), (prop req_body "summary");
      try reflexivity.
    destruct (negb (truthy v) || negb (truthy v0)); [reflexivity |].
    destruct (add fs _ w) as [[id | msg] w']; cbn; discriminate.
Qed.

(** X8: an item of the Firestore history is the document's data with
    the document id put in front, so every field of the data reads as
    stored, and [id] reads as the document id unless the data has an id
    field of its own, which then hides it. *)
Theorem document_id_hidden_by_stored_id :
  forall (id : string) (props : list (string * value)),
    NoDup (map fst props) ->
    prop (document (id, JObj props)) "id"
    = Some (match lookup "id" props with Some v => v | None => JStr id end)
    /\ (forall k, k <> "id"%string ->
                  prop (document (id, JObj props)) k = prop (JObj props) k).
Proof.
  intros id props Hnd. unfold document. cbn [prop fst snd spread]. split.
  - rewrite (lookup_assign "id" props Hnd). cbn.
    destruct (lookup "id" props); reflexivity.
  - intros k Hk. rewrite (lookup_assign k props Hnd).
    destruct (lookup k props); [reflexivity |].
    cbn. apply String.eqb_neq in Hk. now rewrite Hk.
Qed.

(** A request without userId, with Firestore configured. *)
Lemma firestore_bypasses_memory_witness :
  snd (fst (FirestoreHistory.post_history unit
              (Some {| add := fun _ w => (inl "doc1"%string, w);
                       query_user := fun _ w => (inl [], w) |})
              Examples.history_env (JObj [("product", JStr "AEGIS")]) tt
              [Examples.history_request]))
  = tt.
Proof.
  refine (proj2 (proj2 (firestore_bypasses_memory unit
                          {| add := fun _ w => (inl "doc1"%string, w);
                             query_user := fun _ w => (inl [], w) |}
                          Examples.history_env (JObj [("product", JStr "AEGIS")]) (JObj [])
                          tt [Examples.history_request] [])) _).
  reflexivity.
Defined.

(** A document whose data carries an id of its own. *)
Lemma document_id_hidden_by_stored_id_witness :
  prop (document ("doc7", JObj [("id", JStr "local1"); ("userId", JStr "u1")])) "id"
  = Some (JStr "local1").
Proof.
  refine (proj1 (document_id_hidden_by_stored_id "doc7"
                   [("id", JStr "local1"); ("userId", JStr "u1")] _)).
  constructor; [cbn; intros [H | []]; discriminate |].
  constructor; [intros [] | constructor].
Defined.

End FirestoreFacts.

(** ** The proxy routes: what they answer and what they send *)

Module ProxyFacts.

Import Gateway Proxies.

Section WithService.

Variable World : Type.
Variable service : string -> value -> World -> (value + string) * World.
Variable fetch : string -> World -> (value + string) * World.
Variable python_url : string.

Lemma yields_ret {A} (P : A -> Prop) (a : A) : P a -> yields P (ret World a).
Proof. intros Ha st r st' H. inversion H. now subst. Qed.

Lemma yields_bind {A B} (P : B -> Prop) (c : M World A) (k : A -> M World B) :
  (forall a, yields P (k a)) -> yields P (bind World c k).
Proof.
  intros Hk st r st'. unfold bind.
  destruct (c st) as [[a | e] st1]; [apply Hk | discriminate].
Qed.

(** A route whose body is wrapped in [try] and whose [catch] logs and
    answers 500 always answers. *)
Lemma guarded_route_answers (c : M World Response) (label : string)
    (failure : Exn -> value) (st : State World) :
  yields (fun r => status_code r = 200%nat) c ->
  exists resp,
    answered
      (try_catch World c
         (fun error =>
            bind World (console_error World label (message error))
              (fun _ => ret World (res_status_json 500 (failure error)))) st)
      resp
    /\ (status_code resp = 200%nat \/ status_code resp = 500%nat).
Proof.
  intros Hc. unfold answered, try_catch.
  destruct (c st) as [[r | e] st1] eqn:E.
  - exists r. split; [reflexivity |]. left. eapply Hc, E.
  - eexists. split; [reflexivity |]. right. reflexivity.
Qed.

Ltac yields_200 :=
  repeat first
    [ apply yields_bind; intros ?
    | apply yields_ret; reflexivity ].

(** X9: every proxy route always answers, with status 200 or 500,
    whatever the request body and whatever the service does: no
    exception gets past its catch. *)
Theorem proxy_routes_always_answer :
  forall (req_body : value) (st : State World),
    (exists resp,
        answered (cascade_simulate World service python_url req_body st) resp
        /\ (status_code resp = 200%nat \/ status_code resp = 500%nat))
    /\ (exists resp,
           answered (aegis_analyze World service python_url req_body st) resp
           /\ (status_code resp = 200%nat \/ status_code resp = 500%nat))
    /\ (exists resp,
           answered (marine_analyze World service python_url req_body st) resp
           /\ (status_code resp = 200%nat \/ status_code resp = 500%nat))
    /\ (exists resp,
           answered (aquahear_generate World service python_url req_body st) resp
           /\ (status_code resp = 200%nat \/ status_code resp = 500%nat))
    /\ (exists resp,
           answered (aegis_sample_data World fetch python_url st) resp
           /\ (status_code resp = 200%nat \/ status_code resp = 500%nat))
    /\ (exists resp,
           answered (marine_vessels World fetch python_url st) resp
           /\ (status_code resp = 200%nat \/ status_code resp = 500%nat)).
Proof.
  intros req_body st. repeat split.
  - unfold cascade_simulate.
    apply (guarded_route_answers _ "Cascade simulate error:"
             (fun error => JObj [("error", JStr "Failed to run propagation simulation");
                                 ("detail", JStr (message error))])).
    yields_200.
  - unfold aegis_analyze.
    apply (guarded_route_answers _ "AEGIS analyze error:"
             (fun error => JObj [("error", JStr "Failed to run AEGIS analysis");
                                 ("detail", JStr (message error))])).
    yields_200.
  - unfold marine_analyze.
    apply (guarded_route_answers _ "Marine analyze error:"
             (fun error => JObj [("error", JStr "Failed to run marine analysis");
                                 ("detail", JStr (message error))])).
    yields_200.
  - unfold aquahear_generate.
    apply (guarded_route_answers _ "AquaHear generate error:"
             (fun error => JObj [("error", JStr "Failed to generate voice alert");
                                 ("detail", JStr (message error))])).
    yields_200.
  - unfold aegis_sample_data.
    apply (guarded_route_answers _ "Sample data error:"
             (fun _ => JObj [("error", JStr "Failed to generate sample data")])).
    yields_200.
  - unfold marine_vessels.
    apply (guarded_route_answers _ "Vessel positions error:"
             (fun _ => JObj [("error", JStr "Failed to get vessel positions")])).
    yields_200.
Qed.

Lemma prop_field (o : value) (k : string) :
  nullish o = false -> prop o k = Some (field o k).
Proof. unfold field. destruct o; cbn; intros H; try discriminate; reflexivity. Qed.

Lemma console_nil (st : State World) (w : World) (c : Call) :
  {| world := w; calls := calls st ++ [c]; console := console st |}
  = after_call st w c [].
Proof. unfold after_call. now rewrite app_nil_r. Qed.

Lemma cascade_run (req_body : value) (st : State World) :
  nullish req_body = false ->
  cascade_simulate World service python_url req_body st
  = proxied st
      {| url := python_url ++ "/simulate_propagation";
         payload := forwarded_simulation req_body |}
      (service (python_url ++ "/simulate_propagation")
         (forwarded_simulation req_body) (world st))
      "Cascade simulate error:"
      (fun msg => JObj [("error", JStr "Failed to run propagation simulation");
                        ("detail", JStr msg)]).
Proof.
  intros Hb. unfold cascade_simulate, destructure, forwarded_simulation, proxied.
  rewrite !(prop_field req_body _ Hb).
  unfold try_catch, bind, ret, axios_post, console_error. cbn.
  destruct (service _ _ (world st)) as [[data | msg] w1]; cbn.
  - now rewrite console_nil.
  - reflexivity.
Qed.

Lemma aegis_run (req_body : value) (st : State World) :
  nullish req_body = false ->
  aegis_analyze World service python_url req_body st
  = proxied st
      {| url := python_url ++ "/predict_fragility";
         payload := forwarded_analysis req_body |}
      (service (python_url ++ "/predict_fragility")
         (forwarded_analysis req_body) (world st))
      "AEGIS analyze error:"
      (fun msg => JObj [("error", JStr "Failed to run AEGIS analysis");
                        ("detail", JStr msg)]).
Proof.
  intros Hb. unfold aegis_analyze, destructure, forwarded_analysis, proxied.
  rewrite !(prop_field req_body _ Hb).
  unfold try_catch, bind, ret, axios_post, console_error. cbn.
  destruct (service _ _ (world st)) as [[data | msg] w1]; cbn.
  - now rewrite console_nil.
  - reflexivity.
Qed.

Lemma aquahear_run (req_body : value) (st : State World) :
  nullish req_body = false ->
  aquahear_generate World service python_url req_body st
  = proxied st
      {| url := python_url ++ "/generate_audio";
         payload := forwarded_voice req_body |}
      (service (python_url ++ "/generate_audio")
         (forwarded_voice req_body) (world st))
      "AquaHear generate error:"
      (fun msg => JObj [("error", JStr "Failed to generate voice alert");
                        ("detail", JStr msg)]).
Proof.
  intros Hb. unfold aquahear_generate, destructure, forwarded_voice, proxied.
  rewrite !(prop_field req_body _ Hb).
  unfold try_catch, bind, ret, axios_post, console_error. cbn.
  destruct (service _ _ (world st)) as [[data | msg] w1]; cbn.
  - now rewrite console_nil.
  - reflexivity.
Qed.

Lemma sample_data_run (st : State World) :
  aegis_sample_data World fetch python_url st
  = proxied st {| url := python_url ++ "/sample_data"; payload := JUndef |}
      (fetch (python_url ++ "/sample_data") (world st))
      "Sample data error:"
      (fun _ => JObj [("error", JStr "Failed to generate sample data")]).
Proof.
  unfold aegis_sample_data, proxied, try_catch, bind, ret, axios_get, console_error.
  destruct (fetch _ (world st)) as [[data | msg] w1]; cbn.
  - now rewrite console_nil.
  - reflexivity.
Qed.

Lemma vessels_run (st : State World) :
  marine_vessels World fetch python_url st
  = proxied st {| url := python_url ++ "/vessel_positions"; payload := JUndef |}
      (fetch (python_url ++ "/vessel_positions") (world st))
      "Vessel positions error:"
      (fun _ => JObj [("error", JStr "Failed to get vessel positions")]).
Proof.
  unfold marine_vessels, proxied, try_catch, bind, ret, axios_get, console_error.
  destruct (fetch _ (world st)) as [[data | msg] w1]; cbn.
  - now rewrite console_nil.
  - reflexivity.
Qed.

Lemma proxied_answer (st : State World) (c : Call) (answer : (value + string) * World)
    (label : string) (failure : string -> value) (resp : Response) :
  answered (proxied st c answer label failure) resp ->
  calls (snd (proxied st c answer label failure)) = calls st ++ [c]
  /\ ((status_code resp = 200%nat /\ exists w, answer = (inl (body resp), w))
      \/ (status_code resp = 500%nat
          /\ exists msg w, answer = (inr msg, w) /\ body resp = failure msg)).
Proof.
  unfold answered, proxied. destruct answer as [[data | msg] w]; cbn; intros H;
    inversion H; subst; cbn; split; try reflexivity.
  - left. split; [reflexivity |]. now exists w.
  - right. split; [reflexivity |]. now exists msg, w.
Qed.

(** X10: for a body that has properties, each of the three POST proxies
    makes exactly one call, and its answer comes from the service's
    answer to that call: a 200 answer is the service's data as it is, a
    500 answer carries the service's message as detail. *)
Theorem post_proxies_pass_answers_through :
  forall (req_body : value) (st : State World),
    nullish req_body = false ->
    forall (route : value -> M World Response) (path : string),
      (route = cascade_simulate World service python_url
       /\ path = "/simulate_propagation"%string)
      \/ (route = aegis_analyze World service python_url
          /\ path = "/predict_fragility"%string)
      \/ (route = aquahear_generate World service python_url
          /\ path = "/generate_audio"%string) ->
      forall resp,
        answered (route req_body st) resp ->
        exists sent,
          calls (snd (route req_body st))
          = calls st ++ [{| url := python_url ++ path; payload := sent |}]
          /\ ((status_code resp = 200%nat
               /\ exists w, service (python_url ++ path) sent (world st)
                            = (inl (body resp), w))
              \/ (status_code resp = 500%nat
                  /\ exists msg w,
                       service (python_url ++ path) sent (world st) = (inr msg, w)
                       /\ field (body resp) "detail" = JStr msg)).
Proof.
  intros req_body st Hb route path Hroute resp Hresp.
  destruct Hroute as [[-> ->] | [[-> ->] | [-> ->]]].
  - rewrite cascade_run in Hresp |- * by exact Hb.
    exists (forwarded_simulation req_body).
    destruct (proxied_answer _ _ _ _ _ _ Hresp) as [Hc [H200 | (H500 & msg & w & Hs & Hbody)]].
    + split; [exact Hc | now left].
    + split; [exact Hc |]. right. split; [exact H500 |].
      exists msg, w. split; [exact Hs |]. now rewrite Hbody.
  - rewrite aegis_run in Hresp |- * by exact Hb.
    exists (forwarded_analysis req_body).
    destruct (proxied_answer _ _ _ _ _ _ Hresp) as [Hc [H200 | (H500 & msg & w & Hs & Hbody)]].
    + split; [exact Hc | now left].
    + split; [exact Hc |]. right. split; [exact H500 |].
      exists msg, w. split; [exact Hs |]. now rewrite Hbody.
  - rewrite aquahear_run in Hresp |- * by exact Hb.
    exists (forwarded_voice req_body).
    destruct (proxied_answer _ _ _ _ _ _ Hresp) as [Hc [H200 | (H500 & msg & w & Hs & Hbody)]].
    + split; [exact Hc | now left].
    + split; [exact Hc |]. right. split; [exact H500 |].
      exists msg, w. split; [exact Hs |]. now rewrite Hbody.
Qed.

(** X11: each of the two GET proxies makes exactly one call; a 200
    answer is the service's data as it is, and a 500 answer is a fixed
    error text that never carries the service's message. *)
Theorem get_proxies_hide_the_failure :
  forall (st : State World) (route : M World Response) (path error_text : string),
    (route = aegis_sample_data World fetch python_url
     /\ path = "/sample_data"%string
     /\ error_text = "Failed to generate sample data"%string)
    \/ (route = marine_vessels World fetch python_url
        /\ path = "/vessel_positions"%string
        /\ error_text = "Failed to get vessel positions"%string) ->
    forall resp,
      answered (route st) resp ->
      calls (snd (route st)) = calls st ++ [{| url := python_url ++ path; payload := JUndef |}]
      /\ ((status_code resp = 200%nat
           /\ exists w, fetch (python_url ++ path) (world st) = (inl (body resp), w))
          \/ (status_code resp = 500%nat
              /\ (exists msg w, fetch (python_url ++ path) (world st) = (inr msg, w))
              /\ body resp = JObj [("error", JStr error_text)])).
Proof.
  intros st route path error_text Hroute resp Hresp.
  destruct Hroute as [(-> & -> & ->) | (-> & -> & ->)].
  - rewrite sample_data_run in Hresp |- *.
    destruct (proxied_answer _ _ _ _ _ _ Hresp) as [Hc [H200 | (H500 & msg & w & Hs & Hbody)]].
    + split; [exact Hc | now left].
    + split; [exact Hc |]. right. split; [exact H500 |]. split; [now exists msg, w | exact Hbody].
  - rewrite vessels_run in Hresp |- *.
    destruct (proxied_answer _ _ _ _ _ _ Hresp) as [Hc [H200 | (H500 & msg & w & Hs & Hbody)]].
    + split; [exact Hc | now left].
    + split; [exact Hc |]. right. split; [exact H500 |]. split; [now exists msg, w | exact Hbody].
Qed.

Lemma or_else_twice (a d : value) : or_else (or_else a d) d = or_else a d.
Proof.
  unfold or_else. destruct (truthy a) eqn:E; [now rewrite E |].
  destruct (truthy d); reflexivity.
Qed.

Lemma cascade_null_body (req_body : value) (st : State World) :
  nullish req_body = true ->
  calls (snd (cascade_simulate World service python_url req_body st)) = calls st.
Proof. destruct req_body; cbn; intros H; try discriminate; reflexivity. Qed.

Lemma proxied_calls (st : State World) (c : Call) (answer : (value + string) * World)
    (label : string) (failure : string -> value) :
  calls (snd (proxied st c answer label failure)) = calls st ++ [c].
Proof. unfold proxied. destruct answer as [[data | msg] w]; reflexivity. Qed.

(** X12: whatever the body, the call the cascade route makes never
    carries an empty, zero or missing source_type, flow_direction,
    flow_speed or simulation_hours, and it carries source_lat and
    source_lon exactly as the body has them. *)
Theorem cascade_never_forwards_empty_parameters :
  forall (req_body : value) (st : State World) (c : Call),
    In c (calls (snd (cascade_simulate World service python_url req_body st))) ->
    In c (calls st)
    \/ (Forall (fun k => truthy (field (payload c) k) = true)
               ["source_type"; "flow_direction"; "flow_speed"; "simulation_hours"]%string
        /\ field (payload c) "source_lat" = field req_body "source_lat"
        /\ field (payload c) "source_lon" = field req_body "source_lon").
Proof.
  intros req_body st c Hin.
  destruct (nullish req_body) eqn:Hb.
  - left. now rewrite cascade_null_body in Hin.
  - rewrite cascade_run, proxied_calls in Hin by exact Hb.
    apply in_app_or in Hin. destruct Hin as [Hin | [<- | []]]; [now left |].
    right. cbn [payload]. unfold forwarded_simulation.
    split; [| split; reflexivity].
    repeat constructor; cbn; apply HistoryQueryFacts.or_else_truthy; reflexivity.
Qed.

Lemma last_payload_proxied (st : State World) (c : Call)
    (answer : (value + string) * World) (label : string) (failure : string -> value) :
  last_payload (snd (proxied st c answer label failure)) = payload c.
Proof. unfold last_payload. now rewrite proxied_calls, rev_app_distr. Qed.

(** X13: the defaults of the cascade route apply once: when the payload
    the route sent for a body is posted to it again, the route sends
    that payload unchanged. *)
Theorem cascade_defaults_apply_once :
  forall (req_body : value) (st1 st2 : State World),
    nullish req_body = false ->
    last_payload
      (snd (cascade_simulate World service python_url
              (last_payload (snd (cascade_simulate World service python_url req_body st1)))
              st2))
    = last_payload (snd (cascade_simulate World service python_url req_body st1)).
Proof.
  intros req_body st1 st2 Hb.
  rewrite (cascade_run req_body st1 Hb), last_payload_proxied. cbn [payload].
  rewrite cascade_run by reflexivity. rewrite last_payload_proxied. cbn [payload].
  unfold forwarded_simulation at 1. unfold field at 1 2 3 4 5 6.
  unfold forwarded_simulation at 1 2 3 4 5 6. cbn [prop lookup String.eqb Ascii.eqb Bool.eqb].
  cbn. rewrite !or_else_twice. reflexivity.
Qed.

End WithService.

(** A request with a zero direction, against a service that echoes. *)
Lemma post_proxies_pass_answers_through_witness :
  exists sent,
    calls (snd (cascade_simulate unit (stateless (fun _ p => inl p)) Examples.python_url
                  (Examples.simulate_request (JNum 13) (JNum 80) (JNum 0) (JNum 12))
                  (start tt)))
    = [{| url := (Examples.python_url ++ "/simulate_propagation")%string; payload := sent |}].
Proof.
  destruct (post_proxies_pass_answers_through unit (stateless (fun _ p => inl p))
              Examples.python_url
              (Examples.simulate_request (JNum 13) (JNum 80) (JNum 0) (JNum 12))
              (start tt) eq_refl
              (cascade_simulate unit (stateless (fun _ p => inl p)) Examples.python_url)
              "/simulate_propagation"%string (or_introl (conj eq_refl eq_refl))
              (res_json (Examples.simulate_request (JNum 13) (JNum 80) (JNum 180) (JNum 12)))
              eq_refl) as (sent & Hcalls & _).
  exists sent. exact Hcalls.
Defined.

Lemma get_proxies_hide_the_failure_witness :
  calls (snd (marine_vessels unit (fun _ w => (inr "connect ECONNREFUSED"%string, w))
                Examples.python_url (start tt)))
  = [{| url := (Examples.python_url ++ "/vessel_positions")%string; payload := JUndef |}].
Proof.
  refine (proj1 (get_proxies_hide_the_failure unit
                   (fun _ w => (inr "connect ECONNREFUSED"%string, w))
                   Examples.python_url (start tt)
                   (marine_vessels unit (fun _ w => (inr "connect ECONNREFUSED"%string, w))
                      Examples.python_url)
                   "/vessel_positions"%string "Failed to get vessel positions"%string
                   (or_intror (conj eq_refl (conj eq_refl eq_refl)))
                   (res_status_json 500 (JObj [("error", JStr "Failed to get vessel positions")]))
                   eq_refl)).
Defined.

Lemma cascade_never_forwards_empty_parameters_witness :
  Forall (fun k =>
            truthy (field (payload (Examples.simulate_call (JNum 13) (JNum 80)
                                      (JNum 180) (JNum 12))) k) = true)
         ["source_type"; "flow_direction"; "flow_speed"; "simulation_hours"]%string.
Proof.
  destruct (cascade_never_forwards_empty_parameters unit (stateless (fun _ p => inl p))
              Examples.python_url
              (Examples.simulate_request (JNum 13) (JNum 80) (JNum 0) (JNum 0))
              (start tt)
              (Examples.simulate_call (JNum 13) (JNum 80) (JNum 180) (JNum 12)))
    as [[] | [H _]]; [left; reflexivity | exact H].
Defined.

Lemma cascade_defaults_apply_once_witness :
  last_payload
    (snd (cascade_simulate unit (stateless (fun _ p => inl p)) Examples.python_url
            (last_payload
               (snd (cascade_simulate unit (stateless (fun _ p => inl p))
                       Examples.python_url
                       (Examples.simulate_request (JNum 13) (JNum 80) (JNum 0) (JNum 0))
                       (start tt))))
            (start tt)))
  = last_payload
      (snd (cascade_simulate unit (stateless (fun _ p => inl p)) Examples.python_url
              (Examples.simulate_request (JNum 13) (JNum 80) (JNum 0) (JNum 0))
              (start tt))).
Proof.
  apply (cascade_defaults_apply_once unit (stateless (fun _ p => inl p))
           Examples.python_url
           (Examples.simulate_request (JNum 13) (JNum 80) (JNum 0) (JNum 0))
           (start tt) (start tt)).
  reflexivity.
Defined.

End ProxyFacts.

(** ** The marine route: what the answer holds *)

Module MarineAnswerFacts.

Import Gateway MarineTrace MarineRun Proxies ObjectFacts.

Section WithService.

Variable World : Type.
Variable service : string -> value -> World -> (value + string) * World.
Variable python_url : string.

Local Abbreviation marine_run := (MarineFacts.marine_run World service python_url).

(** Every estimate asked for ends as a spill result or as a line on the
    console. *)
Lemma spill_loop_account (statuses : list value) :
  forall acc st r st',
    spill_loop World service python_url statuses acc st = (inl r, st') ->
    (List.length r + List.length (console st') + List.length (calls st)
     = List.length acc + List.length (console st) + List.length (calls st'))%nat.
Proof.
  induction statuses as [| vs rest IH]; intros acc st r st'; cbn [spill_loop].
  - unfold ret. intros H. inversion H. subst. lia.
  - unfold bind at 1.
    destruct (MarineFacts.spill_step_cases World service python_url acc vs st)
      as [[Hn [e He]] | [[Hs [Hw He]] | [[Hs [Hw (x & w' & _ & He)]] | [Hs [Hw (x & w' & _ & He)]]]]];
      rewrite He; intros H.
    + discriminate.
    + apply (IH _ _ _ _ H).
    + apply IH in H. cbn [calls console] in H. rewrite !length_app in H.
      cbn [List.length] in H. lia.
    + apply IH in H. cbn [calls console] in H. rewrite !length_app in H.
      cbn [List.length] in H. lia.
Qed.

(** An entry without properties ends the loop with a TypeError. *)
Lemma spill_loop_null_entry (statuses : list value) :
  (exists vs, In vs statuses /\ prop vs "status" = None) ->
  forall acc st, exists e st',
    spill_loop World service python_url statuses acc st = (inr e, st').
Proof.
  induction statuses as [| vs rest IH]; intros (bad & Hin & Hbad) acc st.
  - contradiction.
  - cbn [spill_loop]. unfold bind at 1.
    destruct (MarineFacts.spill_step_cases World service python_url acc vs st)
      as [[Hn [e He]] | [[Hs [Hw He]] | [[Hs [Hw (x & w' & _ & He)]] | [Hs [Hw (x & w' & _ & He)]]]]];
      rewrite He.
    + eauto.
    + destruct Hin as [-> | Hin]; [congruence |]. apply IH. eauto.
    + destruct Hin as [-> | Hin]; [congruence |]. apply IH. eauto.
    + destruct Hin as [-> | Hin]; [congruence |]. apply IH. eauto.
Qed.


(** X15: in a run of the marine route that ends with a 200 answer, every
    call made is accounted for: one call to the detector, one per
    element of oil_spills, and one per line the run wrote to the
    console. *)
Theorem marine_calls_accounted_for :
  forall (req_body vessels data : value) (st st' : State World) (w1 : World)
         (resp : Response),
    prop req_body "vessels" = Some vessels ->
    service (python_url ++ "/detect_vessel_anomaly")
            (JObj [("vessels", or_else vessels JNull)]) (world st) = (inl data, w1) ->
    marine_analyze World service python_url req_body st = (inl resp, st') ->
    status_code resp = 200%nat ->
    exists spills,
      field (body resp) "oil_spills" = JArr spills
      /\ (List.length (calls st') + List.length (console st)
          = List.length (calls st) + 1 + List.length spills + List.length (console st'))%nat.
Proof.
  intros req_body vessels data st st' w1 resp Hbody Hsvc Hrun Hok.
  rewrite (marine_run _ _ _ _ _ Hbody Hsvc) in Hrun.
  destruct (prop data "vessel_statuses") as [vessel_statuses |];
    [| cbn in Hrun; inversion Hrun; subst; discriminate].
  destruct (iterate (or_else vessel_statuses (JArr []))) as [items |];
    [| cbn in Hrun; inversion Hrun; subst; discriminate].
  destruct (spill_loop World service python_url items [] _) as [[spills | e] st2] eqn:Eloop;
    [| cbn in Hrun; inversion Hrun; subst; discriminate].
  inversion Hrun; subst. exists spills. split.
  - unfold field, marine_answer. cbn [body res_json prop]. now rewrite lookup_set_prop_same.
  - apply spill_loop_account in Eloop. cbn [detected calls console List.length] in Eloop.
    rewrite length_app in Eloop. cbn [List.length] in Eloop. lia.
Qed.

(** X16: when the detector's list of statuses has an entry without
    properties (null), the route answers 500 with its fixed error text,
    whatever estimates it had obtained before reaching that entry. *)
Theorem null_status_entry_fails_the_analysis :
  forall (req_body vessels data bad : value) (st : State World) (w1 : World)
         (resp : Response),
    prop req_body "vessels" = Some vessels ->
    service (python_url ++ "/detect_vessel_anomaly")
            (JObj [("vessels", or_else vessels JNull)]) (world st) = (inl data, w1) ->
    In bad (statuses_of data) ->
    prop bad "status" = None ->
    answered (marine_analyze World service python_url req_body st) resp ->
    status_code resp = 500%nat
    /\ field (body resp) "error" = JStr "Failed to run marine analysis"
    /\ lookup "oil_spills" (spread (body resp)) = None.
Proof.
  intros req_body vessels data bad st w1 resp Hbody Hsvc Hin Hbad Hresp.
  unfold answered in Hresp. rewrite (marine_run _ _ _ _ _ Hbody Hsvc) in Hresp.
  unfold statuses_of in Hin.
  destruct (prop data "vessel_statuses") as [vessel_statuses |]; [| contradiction].
  destruct (iterate (or_else vessel_statuses (JArr []))) as [items |]; [| contradiction].
  destruct (spill_loop_null_entry items (ex_intro _ bad (conj Hin Hbad)) []
              (detected python_url vessels st w1)) as (e & st2 & Eloop).
  rewrite Eloop in Hresp. cbn in Hresp. inversion Hresp; subst.
  repeat split.
Qed.

End WithService.


Lemma marine_calls_accounted_for_witness :
  exists spills,
    field (body (res_json (JObj (spread Examples.one_distress
                                 ++ [("oil_spills", JArr [])])))) "oil_spills"
    = JArr spills
    /\ (2 + 0 = 0 + 1 + List.length spills + 1)%nat.
Proof.
  apply (marine_calls_accounted_for unit
           (Examples.marine_service Examples.one_distress (inr Examples.spill_failure))
           Examples.python_url (JObj []) JUndef Examples.one_distress (start tt)
           {| world := tt;
              calls := [detector_call Examples.python_url JUndef;
                        spill_call Examples.python_url
                          (JObj [("imo", JStr "IMO9300001"); ("status", JStr "distress");
                                 ("vessel", Examples.tanker)])];
              console := [spill_error_line Examples.spill_failure] |} tt);
    reflexivity.
Defined.

Lemma null_status_entry_fails_the_analysis_witness :
  status_code
    (res_status_json 500
       (JObj [("error", JStr "Failed to run marine analysis");
              ("detail", JStr "Cannot read properties of null (reading 'status')")]))
  = 500%nat.
Proof.
  refine (proj1 (null_status_entry_fails_the_analysis unit
                   (Examples.marine_service
                      (JObj [("vessel_statuses", JArr [JNull])]) (inl Examples.spill_estimate))
                   Examples.python_url (JObj []) JUndef
                   (JObj [("vessel_statuses", JArr [JNull])]) JNull (start tt) tt
                   _ eq_refl eq_refl _ eq_refl eq_refl)).
  now left.
Defined.

End MarineAnswerFacts.

(** ** The pages and the routes they call *)

Module PageFacts.

Import Gateway Proxies Pages.

Section WithService.

Variable World : Type.
Variable service : string -> value -> World -> (value + string) * World.
Variable python_url : string.

Lemma truthy_integer (z : Z) : truthy (JNum (inject_Z z)) = negb (z =? 0)%Z.
Proof. reflexivity. Qed.

Lemma truthy_text (s : string) : s <> ""%string -> truthy (JStr s) = true.
Proof. intros H. cbn. apply String.eqb_neq in H. now rewrite H. Qed.

Lemma truthy_at_least_half (q : Q) : (1 # 2 <= q)%Q -> truthy (JNum q) = true.
Proof.
  intros H. cbn. unfold Qle in H. cbn in H.
  destruct (Z.eqb_spec (Qnum q) 0) as [E | _]; [| reflexivity].
  rewrite E in H. cbn in H. pose proof (Pos2Z.is_pos (Qden q)). lia.
Qed.

(** X17: for every state the simulator page's controls allow, the
    service is asked for exactly what the page posted, with one
    exception: a flow direction of 0 reaches the service as 180. *)
Theorem simulator_page_request_reaches_service :
  forall (p : CascadePage) (loc : Q * Q) (st : State World),
    within_controls p ->
    last_payload (snd (cascade_simulate World service python_url (simulation_body p loc) st))
    = JObj [("source_lat", JNum (fst loc));
            ("source_lon", JNum (snd loc));
            ("source_type", JStr (sourceType p));
            ("flow_direction",
             JNum (inject_Z (if (flowDirection p =? 0)%Z then 180 else flowDirection p)));
            ("flow_speed", JNum (flowSpeed p));
            ("simulation_hours", JNum (inject_Z (simHours p)))].
Proof.
  intros p loc st (Htype & Hdir & Hlo & Hhi & Hhours).
  rewrite ProxyFacts.cascade_run by reflexivity.
  rewrite ProxyFacts.last_payload_proxied. cbn [payload].
  unfold forwarded_simulation, simulation_body, field. cbn [prop lookup].
  cbn [String.eqb Ascii.eqb Bool.eqb andb].
  unfold or_else.
  rewrite (truthy_text _ Htype), (truthy_at_least_half _ Hlo), !truthy_integer.
  destruct (Z.eqb_spec (flowDirection p) 0) as [E | E];
    destruct (Z.eqb_spec (simHours p) 0) as [E' | E']; cbn [negb]; try lia; reflexivity.
Qed.

(** X18: after a click with a source location set, the simulator page
    is no longer loading; when the service answered, the page holds the
    service's data as its result, no error, and hour 0; when the service
    failed, the page keeps its result and its hour and shows the
    gateway's fixed error text, never the service's message. *)
Theorem simulator_page_after_exchange :
  forall (p : CascadePage) (loc : Q * Q) (st : State World),
    sourceLocation p = Some loc ->
    let after :=
      runSimulation
        (fun b => seen (cascade_simulate World service python_url b st)) p in
    loading after = false
    /\ match service (python_url ++ "/simulate_propagation")
               (forwarded_simulation (simulation_body p loc)) (world st) with
       | (inl data, _) =>
           result after = data /\ error after = JStr "" /\ currentHour after = 0%Z
       | (inr _, _) =>
           result after = result p /\ currentHour after = currentHour p
           /\ error after = JStr "Failed to run propagation simulation"
       end.
Proof.
  intros p loc st Hloc after. subst after. unfold runSimulation, seen. rewrite Hloc.
  rewrite ProxyFacts.cascade_run by reflexivity. unfold proxied.
  destruct (service _ _ (world st)) as [[data | msg] w1]; cbn; repeat split.
Qed.

(** X19: for every state of the monitor page whose scenario is not
    empty, what the page posts reaches the fragility service unchanged,
    in scenario mode and in manual mode alike, for every time step
    including 0. *)
Theorem monitor_page_request_reaches_service_unchanged :
  forall (p : AegisPage) (st : State World),
    scenario p <> ""%string ->
    last_payload (snd (aegis_analyze World service python_url (analysis_payload p) st))
    = analysis_payload p.
Proof.
  intros p st Hscenario.
  rewrite ProxyFacts.aegis_run by reflexivity.
  rewrite ProxyFacts.last_payload_proxied. cbn [payload].
  unfold forwarded_analysis, analysis_payload, field. cbn [prop lookup].
  cbn [String.eqb Ascii.eqb Bool.eqb andb].
  unfold or_else. rewrite truthy_integer.
  assert (Hs : truthy (JStr (if (mode p =? "scenario")%string
                             then scenario p else "Normal")) = true).
  { destruct (mode p =? "scenario")%string; [now apply truthy_text | reflexivity]. }
  rewrite Hs.
  destruct (Z.eqb_spec (timeStep p) 0) as [-> | _]; cbn [negb];
    destruct (mode p =? "manual")%string; reflexivity.
Qed.

End WithService.

(** The page as it opens, with a point clicked off Chennai, turned to
    direction 0. *)
Lemma simulator_page_request_reaches_service_witness :
  last_payload
    (snd (cascade_simulate unit (stateless (fun _ p => inl p)) Examples.python_url
            (simulation_body page_turned_north (13, 80)) (start tt)))
  = JObj [("source_lat", JNum 13); ("source_lon", JNum 80);
          ("source_type", JStr "Oil Spill"); ("flow_direction", JNum 180);
          ("flow_speed", JNum 2); ("simulation_hours", JNum 12)].
Proof.
  apply (simulator_page_request_reaches_service unit (stateless (fun _ p => inl p))
           Examples.python_url page_turned_north (13, 80) (start tt)).
  unfold within_controls. cbn.
  repeat split; try discriminate; try lia; intros H; discriminate H.
Defined.

Lemma simulator_page_after_exchange_witness :
  loading (runSimulation
             (fun b => seen (cascade_simulate unit
                               (stateless (fun _ _ => inr "connect ECONNREFUSED"%string))
                               Examples.python_url b (start tt)))
             page_turned_north) = false.
Proof.
  refine (proj1 (simulator_page_after_exchange unit
                   (stateless (fun _ _ => inr "connect ECONNREFUSED"%string))
                   Examples.python_url page_turned_north (13, 80) (start tt) _)).
  reflexivity.
Defined.

Lemma monitor_page_request_reaches_service_unchanged_witness :
  last_payload
    (snd (aegis_analyze unit (stateless (fun _ p => inl p)) Examples.python_url
            (analysis_payload page_flood_now) (start tt)))
  = analysis_payload page_flood_now.
Proof.
  apply (monitor_page_request_reaches_service_unchanged unit (stateless (fun _ p => inl p))
           Examples.python_url page_flood_now (start tt)).
  discriminate.
Defined.

End PageFacts.
